(** * The epoch trainer of the PyTorch study notebooks

    A shallow embedding of the two training loops of the repository:

    - [training_with_pytorch/Video 6 - Model Training with PyTorch]:
      [train_one_epoch] and the epoch loop with validation, best-loss
      tracking and [torch.save];
    - [pytorch_tensorboard_support/1 - TensorBoard]: the single-epoch loop
      that runs a validation check every 1000 mini-batches.

    The numerical framework (model, loss function, autograd, optimizer) is
    an external collaborator: it is a record of operations, each of which
    may raise.  Python's control flow is written in a state-and-exception
    monad over the notebook's global state; an exception leaves the state
    as it was when it was raised, as in the interpreter.  Scalars (losses
    and their means) are rationals: rounding is outside the model.  A
    [DataLoader] is the list of batches it yields in an epoch; the order a
    shuffling loader picks, and failures of loading, are outside the
    model.  [print], the [SummaryWriter] and [torch.save] do not raise. *)

From Stdlib Require Import String List Arith Lia QArith Bool Sorted
  Permutation.
Import ListNotations.

Set Implicit Arguments.
Open Scope nat_scope.

(** ** The framework interface *)

(** [forward] is [model(inputs)]: the networks of both notebooks are built
    from [Conv2d], [MaxPool2d] and [Linear] only, so a forward pass reads
    the parameters (and the train/eval flag) and writes nothing.  A [Loss]
    is the loss tensor with its graph: [item] is [loss.item()] and
    [backward] accumulates its gradients. *)
Record Framework : Type := {
  Params : Type;
  Grads : Type;
  OptState : Type;
  Inputs : Type;
  Labels : Type;
  Outputs : Type;
  Loss : Type;
  ExtErr : Type;
  forward : bool -> Params -> Inputs -> ExtErr + Outputs;
  loss_fn : Outputs -> Labels -> ExtErr + Loss;
  item : Loss -> Q;
  zero_grad : Grads -> Grads;
  backward : Loss -> Grads -> ExtErr + Grads;
  step : OptState -> Params -> Grads -> ExtErr + (OptState * Params)
}.

(** ** Exceptions and results *)

Inductive Exn (E : Type) : Type :=
| ZeroDivisionError
| NameError (name : string)
| FrameworkError (e : E).

Arguments ZeroDivisionError {E}.
Arguments NameError {E} name.
Arguments FrameworkError {E} e.

Inductive Result (E A : Type) : Type :=
| Ok (a : A)
| Raise (x : Exn E).

Arguments Ok {E A} a.
Arguments Raise {E A} x.

Definition is_ok {E A} (r : Result E A) : bool :=
  match r with Ok _ => true | Raise _ => false end.

(** ** Scalars *)

Definition Qltb (a b : Q) : bool :=
  match (a ?= b)%Q with Lt => true | _ => false end.

Definition Qdiv_nat (a : Q) (n : nat) : Q := (a / inject_Z (Z.of_nat n))%Q.

Definition Qsum (l : list Q) : Q := fold_left Qplus l 0%Q.

(** [best_vloss = 1_000_000.] *)
Definition BEST_VLOSS_INIT : Q := 1000000%Q.

(** The reporting interval: both notebooks test [i % 1000 == 999] and
    divide by [1000].  The loops below take the interval as a parameter
    [N]; the notebooks are the instance [N = REPORT_EVERY]. *)
Definition REPORT_EVERY : nat := 1000.

Section State.

Variable F : Framework.

Definition Batch : Type := (Inputs F * Labels F)%type.

(** ** Observable events

    Calls to [print], to the [SummaryWriter] and to [torch.save], in the
    order the program makes them.  Three events are bookkeeping only:
    [EvTrainBatch] marks a training batch whose weight update is done (at
    [running_loss += loss.item()]), [EvValBatch] a validation batch whose
    loss is computed (at [running_vloss += vloss]), [EvRaised] a framework
    call that raised. *)
Inductive Event : Type :=
| EvPrintEpoch (n : nat)
| EvTrainBatch (loss : Q)
| EvPrintBatchLoss (n : nat) (last_loss : Q)
| EvAddScalar (value : Q) (tb_x : nat)
| EvValBatch (vloss : Q)
| EvPrintLoss (avg_loss avg_vloss : Q)
| EvAddScalars (training validation : Q) (global_step : nat)
| EvFlush
| EvSave (timestamp : string) (epoch : nat) (state_dict : Params F)
| EvPrintBatch (n : nat)
| EvPrintLen (n : nat)
| EvPrintFinished
| EvRaised (e : ExtErr F).

(** ** The notebook's global state *)
Record World : Type := mkWorld {
  w_params : Params F;
  w_grads : Grads F;
  w_opt : OptState F;
  w_training : bool;
  epoch_number : nat;
  best_vloss : Q;
  g_i : option nat;
  w_trace : list Event
}.

Definition Prog (A : Type) : Type := World -> Result (ExtErr F) A * World.

Definition ret {A} (a : A) : Prog A := fun w => (Ok a, w).

Definition raise {A} (x : Exn (ExtErr F)) : Prog A := fun w => (Raise x, w).

Definition bind {A B} (m : Prog A) (k : A -> Prog B) : Prog B :=
  fun w => match m w with
           | (Ok a, w') => k a w'
           | (Raise x, w') => (Raise x, w')
           end.

Definition gets {A} (f : World -> A) : Prog A := fun w => (Ok (f w), w).

Definition modify (f : World -> World) : Prog unit := fun w => (Ok tt, f w).

Definition log (ev : Event) : Prog unit :=
  modify (fun w => mkWorld (w_params w) (w_grads w) (w_opt w) (w_training w)
                           (epoch_number w) (best_vloss w) (g_i w)
                           (w_trace w ++ [ev])).

(** A framework call: its exception, if any, becomes the program's. *)
Definition call {A} (r : ExtErr F + A) : Prog A :=
  match r with
  | inl e => bind (log (EvRaised e)) (fun _ => raise (FrameworkError e))
  | inr a => ret a
  end.

Definition set_params_opt (op : OptState F * Params F) : Prog unit :=
  modify (fun w => mkWorld (snd op) (w_grads w) (fst op) (w_training w)
                           (epoch_number w) (best_vloss w) (g_i w) (w_trace w)).

Definition set_grads (g : Grads F) : Prog unit :=
  modify (fun w => mkWorld (w_params w) g (w_opt w) (w_training w)
                           (epoch_number w) (best_vloss w) (g_i w) (w_trace w)).

(** [model.train(flag)] *)
Definition model_train (flag : bool) : Prog unit :=
  modify (fun w => mkWorld (w_params w) (w_grads w) (w_opt w) flag
                           (epoch_number w) (best_vloss w) (g_i w) (w_trace w)).

Definition set_epoch_number (n : nat) : Prog unit :=
  modify (fun w => mkWorld (w_params w) (w_grads w) (w_opt w) (w_training w)
                           n (best_vloss w) (g_i w) (w_trace w)).

Definition set_best_vloss (v : Q) : Prog unit :=
  modify (fun w => mkWorld (w_params w) (w_grads w) (w_opt w) (w_training w)
                           (epoch_number w) v (g_i w) (w_trace w)).

Definition set_i (i : nat) : Prog unit :=
  modify (fun w => mkWorld (w_params w) (w_grads w) (w_opt w) (w_training w)
                           (epoch_number w) (best_vloss w) (Some i) (w_trace w)).

(** Reading the global [i]: unbound until a module-level loop has bound it. *)
Definition read_i : Prog nat :=
  fun w => match g_i w with
           | Some i => (Ok i, w)
           | None => (Raise (NameError "i"), w)
           end.

(** [i % n] *)
Definition py_mod (i n : nat) : Prog nat :=
  match n with
  | O => raise ZeroDivisionError
  | S _ => ret (i mod n)
  end.

(** [a / n] on a float *)
Definition py_div (a : Q) (n : nat) : Prog Q :=
  match n with
  | O => raise ZeroDivisionError
  | S _ => ret (Qdiv_nat a n)
  end.

End State.

Arguments ret {F A} a.
Arguments raise {F A} x.
Arguments bind {F A B} m k.
Arguments gets {F A} f.
Arguments call {F A} r.
Arguments w_params {F} w.
Arguments w_grads {F} w.
Arguments w_opt {F} w.
Arguments w_training {F} w.
Arguments epoch_number {F} w.
Arguments best_vloss {F} w.
Arguments g_i {F} w.
Arguments w_trace {F} w.
Arguments mkWorld {F}.
Arguments log {F} ev.
Arguments set_params_opt {F} op.
Arguments set_grads {F} g.
Arguments read_i {F}.
Arguments model_train {F} flag.
Arguments set_epoch_number {F} n.
Arguments set_best_vloss {F} v.
Arguments set_i {F} i.
Arguments modify {F} f.
Arguments py_mod {F} i n.
Arguments py_div {F} a n.
Arguments EvSave {F} timestamp epoch state_dict.
Arguments EvRaised {F} e.
Arguments EvFlush {F}.
Arguments EvPrintFinished {F}.
Arguments EvPrintEpoch {F} n.
Arguments EvTrainBatch {F} loss.
Arguments EvPrintBatchLoss {F} n last_loss.
Arguments EvAddScalar {F} value tb_x.
Arguments EvValBatch {F} vloss.
Arguments EvPrintLoss {F} avg_loss avg_vloss.
Arguments EvAddScalars {F} training validation global_step.
Arguments EvPrintBatch {F} n.
Arguments EvPrintLen {F} n.

Notation "x <- m ;; k" := (bind m (fun x => k))
  (at level 61, m at next level, right associativity).
Notation "m ;; k" := (bind m (fun _ => k))
  (at level 61, right associativity).

Section Trainer.

Variable F : Framework.

Local Abbreviation M := (Prog F).
Local Abbreviation Batch := (Batch F).

(** ** Framework calls on the global model and optimizer *)

Definition optimizer_zero_grad : M unit :=
  g <- gets w_grads ;; set_grads (zero_grad F g).

Definition model (inputs : Inputs F) : M (Outputs F) :=
  flag <- gets w_training ;;
  p <- gets w_params ;;
  call (forward F flag p inputs).

Definition loss_backward (loss : Loss F) : M unit :=
  g <- gets w_grads ;;
  g' <- call (backward F loss g) ;;
  set_grads g'.

Definition optimizer_step : M unit :=
  o <- gets w_opt ;;
  p <- gets w_params ;;
  g <- gets w_grads ;;
  op <- call (step F o p g) ;;
  set_params_opt op.

(** The body shared by the training loops of both notebooks, from
    [optimizer.zero_grad()] to [optimizer.step()]; returns the loss. *)
Definition train_batch (data : Batch) : M (Loss F) :=
  let (inputs, labels) := data in
  optimizer_zero_grad ;;
  outputs <- model inputs ;;
  loss <- call (loss_fn F outputs labels) ;;
  loss_backward loss ;;
  optimizer_step ;;
  ret loss.

(** ** Video 6: [train_one_epoch] *)

Variable training_loader : list Batch.
Variable validation_loader : list Batch.
Variable timestamp : string.

(** The locals of [train_one_epoch] that live across iterations. *)
Record Locals : Type := mkLocals {
  l_i : nat;
  running_loss : Q;
  last_loss : Q
}.

(** One iteration of [for i, data in enumerate(training_loader)]. *)
Definition train_iter (N epoch_index : nat) (data : Batch) (st : Locals)
  : M Locals :=
  let i := l_i st in
  loss <- train_batch data ;;
  let running := (running_loss st + item F loss)%Q in
  log (EvTrainBatch (item F loss)) ;;
  r <- py_mod i N ;;
  if r =? N - 1 then
    last <- py_div running N ;;
    log (EvPrintBatchLoss (i + 1) last) ;;
    let tb_x := epoch_index * length training_loader + i + 1 in
    log (EvAddScalar last tb_x) ;;
    ret (mkLocals (S i) 0 last)
  else
    ret (mkLocals (S i) running (last_loss st)).

Fixpoint train_loop (N epoch_index : nat) (batches : list Batch) (st : Locals)
  : M Locals :=
  match batches with
  | [] => ret st
  | data :: rest =>
      st' <- train_iter N epoch_index data st ;;
      train_loop N epoch_index rest st'
  end.

Definition train_one_epoch (N epoch_index : nat) : M Q :=
  st <- train_loop N epoch_index training_loader (mkLocals 0 0 0) ;;
  ret (last_loss st).

(** ** Video 6: the epoch loop *)

(** [for i, vdata in enumerate(validation_loader)]: [i] is a global of the
    notebook, bound at the start of each iteration. *)
Fixpoint validation_loop (batches : list Batch) (idx : nat) (running_vloss : Q)
  : M Q :=
  match batches with
  | [] => ret running_vloss
  | (vinputs, vlabels) :: rest =>
      set_i idx ;;
      voutputs <- model vinputs ;;
      vloss <- call (loss_fn F voutputs vlabels) ;;
      log (EvValBatch (item F vloss)) ;;
      validation_loop rest (S idx) (running_vloss + item F vloss)%Q
  end.

(** From [model.train(False)] to [avg_vloss = running_vloss / (i + 1)]. *)
Definition validation_pass : M Q :=
  model_train false ;;
  running_vloss <- validation_loop validation_loader 0 0 ;;
  i <- read_i ;;
  py_div running_vloss (i + 1).

(** [if avg_vloss < best_vloss: ...] *)
Definition track_best (avg_vloss : Q) : M unit :=
  best <- gets best_vloss ;;
  if Qltb avg_vloss best then
    set_best_vloss avg_vloss ;;
    e <- gets epoch_number ;;
    p <- gets w_params ;;
    log (EvSave timestamp e p)
  else ret tt.

(** The body of [for epoch in range(EPOCHS)]. *)
Definition epoch_body (N : nat) : M unit :=
  e <- gets epoch_number ;;
  log (EvPrintEpoch (e + 1)) ;;
  model_train true ;;
  avg_loss <- train_one_epoch N e ;;
  avg_vloss <- validation_pass ;;
  log (EvPrintLoss avg_loss avg_vloss) ;;
  log (EvAddScalars avg_loss avg_vloss (e + 1)) ;;
  log EvFlush ;;
  track_best avg_vloss ;;
  e' <- gets epoch_number ;;
  set_epoch_number (e' + 1).

Fixpoint epoch_loop (N EPOCHS : nat) : M unit :=
  match EPOCHS with
  | O => ret tt
  | S n => epoch_body N ;; epoch_loop N n
  end.

(** The whole cell: [best_vloss = 1_000_000.] and the loop. *)
Definition run (N EPOCHS : nat) : M unit :=
  set_best_vloss BEST_VLOSS_INIT ;;
  epoch_loop N EPOCHS.

(** ** TensorBoard notebook: validation every [N] mini-batches *)

Fixpoint tb_validation_loop (batches : list Batch) (running_vloss : Q) : M Q :=
  match batches with
  | [] => ret running_vloss
  | (vinputs, vlabels) :: rest =>
      voutputs <- model vinputs ;;
      vloss <- call (loss_fn F voutputs vlabels) ;;
      log (EvValBatch (item F vloss)) ;;
      tb_validation_loop rest (running_vloss + item F vloss)%Q
  end.

(** From [running_vloss = 0.0] to [net.train(True)]. *)
Definition tb_validation_check : M Q :=
  model_train false ;;
  running_vloss <- tb_validation_loop validation_loader 0 ;;
  model_train true ;;
  ret running_vloss.

Definition tb_iter (N epoch : nat) (data : Batch) (i : nat) (running : Q)
  : M Q :=
  loss <- train_batch data ;;
  let running := (running + item F loss)%Q in
  log (EvTrainBatch (item F loss)) ;;
  r <- py_mod i N ;;
  if r =? N - 1 then
    log (EvPrintBatch (i + 1)) ;;
    running_vloss <- tb_validation_check ;;
    avg_loss <- py_div running N ;;
    avg_vloss <- py_div running_vloss (length validation_loader) ;;
    log (EvAddScalars avg_loss avg_vloss (epoch * length training_loader + i)) ;;
    ret 0%Q
  else ret running.

Fixpoint tb_train_loop (N epoch : nat) (batches : list Batch) (i : nat)
  (running : Q) : M Q :=
  match batches with
  | [] => ret running
  | data :: rest =>
      running' <- tb_iter N epoch data i running ;;
      tb_train_loop N epoch rest (S i) running'
  end.

(** The cell: [for epoch in range(1)], then the final print and flush. *)
Definition tb_run (N : nat) : M unit :=
  log (EvPrintLen (length validation_loader)) ;;
  tb_train_loop N 0 training_loader 0 0 ;;
  log EvPrintFinished ;;
  log EvFlush.

End Trainer.

(** ** Reading a trace *)

Section Traces.

Variable F : Framework.

(** The events a program appended: what the trace holds beyond its first
    [length (w_trace w)] entries. *)
Definition new_events (w w' : World F) : list (Event F) :=
  skipn (length (w_trace w)) (w_trace w').

(** The ['Loss/train'] data points, as (value, step index). *)
Definition scalars (evs : list (Event F)) : list (Q * nat) :=
  flat_map (fun ev => match ev with
                      | EvAddScalar v x => [(v, x)]
                      | _ => []
                      end) evs.

Definition train_losses (evs : list (Event F)) : list Q :=
  flat_map (fun ev => match ev with EvTrainBatch l => [l] | _ => [] end) evs.

Definition val_losses (evs : list (Event F)) : list Q :=
  flat_map (fun ev => match ev with EvValBatch l => [l] | _ => [] end) evs.

(** The ['Training vs. Validation Loss'] data points. *)
Definition epoch_reports (evs : list (Event F)) : list (Q * Q * nat) :=
  flat_map (fun ev => match ev with
                      | EvAddScalars t v x => [(t, v, x)]
                      | _ => []
                      end) evs.

(** The snapshots written by [torch.save], as (epoch in the path, state). *)
Definition saves (evs : list (Event F)) : list (nat * Params F) :=
  flat_map (fun ev => match ev with EvSave _ e p => [(e, p)] | _ => [] end) evs.

Definition raised (evs : list (Event F)) : list (ExtErr F) :=
  flat_map (fun ev => match ev with EvRaised e => [e] | _ => [] end) evs.

End Traces.

(** ** Means over windows of [N] losses *)

(** The mean of the [j]-th window of [N] consecutive losses of [ls]. *)
Definition window_mean (N : nat) (ls : list Q) (j : nat) : Q :=
  Qdiv_nat (Qsum (firstn N (skipn (j * N) ls))) N.

(** The means of the complete windows of [ls], in order. *)
Definition window_means (N : nat) (ls : list Q) : list Q :=
  map (window_mean N ls) (seq 0 (length ls / N)).

(** ** A small framework to run the loops on

    An input is the loss its batch will produce; a label [false] makes the
    loss function raise.  The parameters count what the optimizer added. *)
Definition toy : Framework := {|
  Params := nat;
  Grads := nat;
  OptState := nat;
  Inputs := Q;
  Labels := bool;
  Outputs := Q;
  Loss := Q;
  ExtErr := string;
  forward := fun _ _ x => inr x;
  loss_fn := fun o ok => if ok then inr o else inl "shape mismatch"%string;
  item := fun l => l;
  zero_grad := fun _ => 0;
  backward := fun _ g => inr (S g);
  step := fun o p g => inr (S o, p + g)
|}.

Definition toy_world : World toy := mkWorld (F:=toy) 0 0 0 false 0 0%Q None [].

(** The state in the middle of a run that has saved nothing so far. *)
Definition toy_world_tracking : World toy :=
  mkWorld (F:=toy) 0 0 0 false 0 BEST_VLOSS_INIT None [].

Definition toy_batch (loss : Q) : Batch toy := (loss, true).

(** A batch on which the loss function raises. *)
Definition toy_bad_batch : Batch toy := (1%Q, false).

Definition toy_train3 : list (Batch toy) :=
  [toy_batch 2; toy_batch 4; toy_batch 9].

Definition toy_train4 : list (Batch toy) :=
  [toy_batch 2; toy_batch 4; toy_batch 6; toy_batch 8].

Definition toy_val2 : list (Batch toy) := [toy_batch 5; toy_batch 7].

(** The events of [train_loop] replayed from the losses of its batches:
    a proof device that separates the reporting logic from the framework
    calls. *)
Fixpoint loop_events (F : Framework) (N base : nat) (st : Locals) (ls : list Q)
  : list (Event F) * Locals :=
  match ls with
  | [] => ([], st)
  | l :: rest =>
      let i := l_i st in
      let running := (running_loss st + l)%Q in
      if i mod N =? N - 1 then
        let last := Qdiv_nat running N in
        let (evs, st') := loop_events F N base (mkLocals (S i) 0 last) rest in
        (EvTrainBatch l :: EvPrintBatchLoss (i + 1) last
           :: EvAddScalar last (base + i + 1) :: evs, st')
      else
        let (evs, st') :=
          loop_events F N base (mkLocals (S i) running (last_loss st)) rest in
        (EvTrainBatch l :: evs, st')
  end.

(** The step indices of [n] reports that follow [k] earlier ones. *)
Definition steps_from (N base k n : nat) : list nat :=
  map (fun j => base + (k + j + 1) * N) (seq 0 n).

Section Outcomes.

Variable F : Framework.

(** What a program leaves alone besides the model and the trace. *)
Definition same_globals (w w' : World F) : Prop :=
  w_training w' = w_training w /\ epoch_number w' = epoch_number w /\
  best_vloss w' = best_vloss w /\ g_i w' = g_i w.

(** The losses of a validation loop under fixed parameters, up to the
    first framework call that raises. *)
Fixpoint eval_losses (flag : bool) (p : Params F) (batches : list (Batch F))
  : list Q * option (ExtErr F) :=
  match batches with
  | [] => ([], None)
  | (x, y) :: rest =>
      match forward F flag p x with
      | inl e => ([], Some e)
      | inr o =>
          match loss_fn F o y with
          | inl e => ([], Some e)
          | inr l =>
              let (ls, r) := eval_losses flag p rest in (item F l :: ls, r)
          end
      end
  end.

(** Some framework operation returns the exception [e]. *)
Definition framework_raises (e : ExtErr F) : Prop :=
  (exists flag p x, forward F flag p x = inl e) \/
  (exists o y, loss_fn F o y = inl e) \/
  (exists l g, backward F l g = inl e) \/
  (exists o p g, step F o p g = inl e).

(** No framework operation ever raises. *)
Definition infallible : Prop := forall e, ~ framework_raises e.

(** How framework exceptions may show in the events [new] of a program
    that ended with [r]: not at all, or once, as the last event, when [r]
    is that very exception. *)
Definition fail_fast (r : Result (ExtErr F) unit) (new : list (Event F))
  : Prop :=
  match r with
  | Raise (FrameworkError e) =>
      framework_raises e /\
      exists pre, new = pre ++ [EvRaised e] /\ raised pre = []
  | _ => raised new = []
  end.

(** [w] with the global [i] and the trace replaced. *)
Definition with_i_trace (w : World F) (gi : option nat)
  (tr : list (Event F)) : World F :=
  mkWorld (w_params w) (w_grads w) (w_opt w) (w_training w)
          (epoch_number w) (best_vloss w) gi tr.

(** The binding of [i] after [for i, vdata in enumerate(batches)]. *)
Definition i_after (batches : list (Batch F)) (gi : option nat) : option nat :=
  match batches with
  | [] => gi
  | _ :: _ => Some (length batches - 1)
  end.

End Outcomes.

Arguments framework_raises {F} e.

Section EpochOutcomes.

Variable F : Framework.
Variable training_loader validation_loader : list (Batch F).
Variable timestamp : string.
Variable N : nat.

(** The events of the training loop of epoch [e] on batches with losses
    [ls], and the value [train_one_epoch] then returns. *)
Definition train_events (e : nat) (ls : list Q) : list (Event F) :=
  fst (loop_events F N (e * length training_loader) (mkLocals 0 0 0) ls).

Definition train_result (e : nat) (ls : list Q) : Q :=
  last_loss (snd (loop_events F N (e * length training_loader)
                              (mkLocals 0 0 0) ls)).

(** The ways one pass through the body of the epoch loop can end, with the
    events it appends: a framework call raises during training or during
    validation, the global [i] is unbound after an empty validation loop,
    or the epoch completes. *)
Inductive epoch_outcome (w : World F)
  : Result (ExtErr F) unit -> World F -> Prop :=
| EpochTrainRaised ls err w' :
    framework_raises err ->
    length ls < length training_loader ->
    w_trace w' = w_trace w ++ EvPrintEpoch (epoch_number w + 1)
                   :: train_events (epoch_number w) ls ++ [EvRaised err] ->
    epoch_number w' = epoch_number w ->
    best_vloss w' = best_vloss w ->
    epoch_outcome w (Raise (FrameworkError err)) w'
| EpochValRaised ls vls err w' :
    framework_raises err ->
    length ls = length training_loader ->
    length vls < length validation_loader ->
    w_trace w' = w_trace w ++ EvPrintEpoch (epoch_number w + 1)
                   :: train_events (epoch_number w) ls
                   ++ map EvValBatch vls ++ [EvRaised err] ->
    epoch_number w' = epoch_number w ->
    best_vloss w' = best_vloss w ->
    epoch_outcome w (Raise (FrameworkError err)) w'
| EpochNameError ls w' :
    length ls = length training_loader ->
    validation_loader = [] ->
    g_i w = None ->
    w_trace w' = w_trace w ++ EvPrintEpoch (epoch_number w + 1)
                   :: train_events (epoch_number w) ls ->
    epoch_number w' = epoch_number w ->
    best_vloss w' = best_vloss w ->
    epoch_outcome w (Raise (NameError "i")) w'
| EpochDone ls vls i w' :
    length ls = length training_loader ->
    eval_losses false (w_params w') validation_loader = (vls, None) ->
    i_after validation_loader (g_i w) = Some i ->
    let avg_loss := train_result (epoch_number w) ls in
    let avg_vloss := Qdiv_nat (Qsum vls) (i + 1) in
    w_trace w' = w_trace w ++ EvPrintEpoch (epoch_number w + 1)
                   :: train_events (epoch_number w) ls
                   ++ map EvValBatch vls
                   ++ [EvPrintLoss avg_loss avg_vloss;
                       EvAddScalars avg_loss avg_vloss (epoch_number w + 1);
                       EvFlush]
                   ++ (if Qltb avg_vloss (best_vloss w)
                       then [EvSave timestamp (epoch_number w) (w_params w')]
                       else []) ->
    epoch_number w' = epoch_number w + 1 ->
    best_vloss w' = (if Qltb avg_vloss (best_vloss w)
                     then avg_vloss else best_vloss w) ->
    g_i w' = Some i ->
    epoch_outcome w (Ok tt) w'.

(** The outcomes of [EPOCHS] passes: all complete, or one aborts. *)
Inductive epochs_outcome
  : nat -> World F -> Result (ExtErr F) unit -> World F -> Prop :=
| EpochsNone w : epochs_outcome 0 w (Ok tt) w
| EpochsNext n w w1 r w' :
    epoch_outcome w (Ok tt) w1 ->
    epochs_outcome n w1 r w' ->
    epochs_outcome (S n) w r w'
| EpochsAbort n w x w' :
    epoch_outcome w (Raise x) w' ->
    epochs_outcome (S n) w (Raise x) w'.

End EpochOutcomes.

(** For each ['Loss/train'] data point of a trace, the number of training
    batches processed (from [count] on) when it was emitted. *)
Fixpoint batches_before_reports {F} (count : nat) (evs : list (Event F))
  : list nat :=
  match evs with
  | [] => []
  | EvTrainBatch _ :: rest => batches_before_reports (S count) rest
  | EvAddScalar _ _ :: rest => count :: batches_before_reports count rest
  | _ :: rest => batches_before_reports count rest
  end.

(** ** The TensorBoard loop replayed

    The events of [tb_train_loop] replayed from the losses [ls] of its
    training batches and, for each iteration that reports, the losses of
    the validation batches it evaluated ([vss], one list per report): a
    proof device, as [loop_events] is. *)
Fixpoint tb_loop_events (F : Framework) (N base nv i : nat) (running : Q)
  (ls : list Q) (vss : list (list Q)) : list (Event F) * Q :=
  match ls with
  | [] => ([], running)
  | l :: rest =>
      if i mod N =? N - 1 then
        match vss with
        | vs :: vss' =>
            let (evs, r) := tb_loop_events F N base nv (S i) 0 rest vss' in
            (EvTrainBatch l :: EvPrintBatch (i + 1)
               :: map EvValBatch vs
               ++ EvAddScalars (Qdiv_nat (running + l) N)
                               (Qdiv_nat (Qsum vs) nv) (base + i)
               :: evs, r)
        | [] => ([], running)
        end
      else
        let (evs, r) :=
          tb_loop_events F N base nv (S i) (running + l) rest vss in
        (EvTrainBatch l :: evs, r)
  end.

(** The number of iterations among [i], ..., [i + n - 1] that report. *)
Fixpoint report_count (N i n : nat) : nat :=
  match n with
  | O => 0
  | S n' => (if i mod N =? N - 1 then 1 else 0) + report_count N (S i) n'
  end.

(** The step indices of the TensorBoard loop's data points. *)
Definition tb_steps_from (N base k n : nat) : list nat :=
  map (fun j => base + (k + j + 1) * N - 1) (seq 0 n).

(** How an iteration of the TensorBoard loop at index [i] can abort, with
    the events [tail] it leaves: a framework call raises, or the
    validation loader is empty and the mean validation loss divides by
    zero. *)
Definition tb_abort {F} (N nv : nat) (x : Exn (ExtErr F)) (i : nat)
  (tail : list (Event F)) : Prop :=
  epoch_reports tail = [] /\
  match x with
  | FrameworkError e =>
      framework_raises e /\
      exists pre, tail = pre ++ [EvRaised e] /\ raised pre = []
  | ZeroDivisionError =>
      nv = 0 /\ i mod N = N - 1 /\
      exists l, tail = [EvTrainBatch l; EvPrintBatch (i + 1)]
  | NameError _ => False
  end.

(** ** The embedding cell of the TensorBoard notebook

    [select_n_random] and the list comprehension that names the selected
    labels.  A tensor of rows is the list of its rows; [perm] is the value
    [torch.randperm(len(data))] returned, a permutation of
    [0, ..., len(data) - 1].  Labels are class indices, so not negative. *)
Inductive CellExn : Type := AssertionError | IndexError.

(** [data[perm]]: the rows of [data] at the indices of [perm], in the
    order of [perm]. *)
Fixpoint index_rows {A} (data : list A) (perm : list nat)
  : CellExn + list A :=
  match perm with
  | [] => inr []
  | i :: rest =>
      match nth_error data i with
      | None => inl IndexError
      | Some x =>
          match index_rows data rest with
          | inl e => inl e
          | inr xs => inr (x :: xs)
          end
      end
  end.

Definition select_n_random {A B} (perm : list nat) (data : list A)
  (labels : list B) (n : nat) : CellExn + (list A * list B) :=
  if length data =? length labels then
    match index_rows data perm with
    | inl e => inl e
    | inr d =>
        match index_rows labels perm with
        | inl e => inl e
        | inr l => inr (firstn n d, firstn n l)
        end
    end
  else inl AssertionError.

(** [classes] *)
Definition classes : list string :=
  ["T-shirt/top"; "Trouser"; "Pullover"; "Dress"; "Coat";
   "Sandal"; "Shirt"; "Sneaker"; "Bag"; "Ankle Boot"]%string.

(** [[classes[label] for label in labels]] *)
Fixpoint class_labels (labels : list nat) : CellExn + list string :=
  match labels with
  | [] => inr []
  | label :: rest =>
      match nth_error classes label with
      | None => inl IndexError
      | Some name =>
          match class_labels rest with
          | inl e => inl e
          | inr names => inr (name :: names)
          end
      end
  end.

(** The cell up to [add_embedding]: the selected images and their
    metadata, with the default [n=100] of [select_n_random]. *)
Definition embedding_cell {A} (perm : list nat) (data : list A)
  (targets : list nat) : CellExn + (list A * list string) :=
  match select_n_random perm data targets 100 with
  | inl e => inl e
  | inr (images, labels) =>
      match class_labels labels with
      | inl e => inl e
      | inr names => inr (images, names)
      end
  end.

(** ** The order of training, validation and persistence

    A reading of a trace, epoch by epoch ([EvPrintEpoch] opens an epoch):
    within one epoch no training batch may follow a validation batch, and
    no batch at all may follow a persisted snapshot. *)
Inductive Phase : Type := Training | Validating | Persisted.

Definition phase_step {F} (ph : Phase) (ev : Event F) : option Phase :=
  match ev with
  | EvPrintEpoch _ => Some Training
  | EvTrainBatch _ =>
      match ph with Training => Some Training | _ => None end
  | EvValBatch _ =>
      match ph with Persisted => None | _ => Some Validating end
  | EvSave _ _ _ => Some Persisted
  | _ => Some ph
  end.

Fixpoint phases_from {F} (ph : Phase) (evs : list (Event F)) : option Phase :=
  match evs with
  | [] => Some ph
  | ev :: rest =>
      match phase_step ph ev with
      | Some ph' => phases_from ph' rest
      | None => None
      end
  end.

Definition phases_ok {F} (evs : list (Event F)) : bool :=
  match phases_from Training evs with Some _ => true | None => false end.

(** * Proofs *)

Section MonadFacts.

Variable F : Framework.

Lemma bind_Ok {A B} (m : Prog F A) (k : A -> Prog F B) w a w1 :
  m w = (Ok a, w1) -> bind m k w = k a w1.
Proof. intros H. unfold bind. now rewrite H. Qed.

Lemma bind_Raise {A B} (m : Prog F A) (k : A -> Prog F B) w x w1 :
  m w = (Raise x, w1) -> bind m k w = (Raise x, w1).
Proof. intros H. unfold bind. now rewrite H. Qed.

Lemma same_globals_refl (w : World F) : same_globals w w.
Proof. now repeat split. Qed.

Lemma same_globals_trans (w1 w2 w3 : World F) :
  same_globals w1 w2 -> same_globals w2 w3 -> same_globals w1 w3.
Proof.
  unfold same_globals. intros (a & b & c & d) (a' & b' & c' & d').
  repeat split; congruence.
Qed.

Lemma train_batch_cases (data : Batch F) (w : World F) :
  match train_batch data w with
  | (Ok _, w') => same_globals w w' /\ w_trace w' = w_trace w
  | (Raise x, w') =>
      exists e, x = FrameworkError e /\ framework_raises e /\
                same_globals w w' /\
                w_trace w' = w_trace w ++ [EvRaised e]
  end.
Proof.
  destruct data as [inputs labels].
  unfold train_batch, optimizer_zero_grad, model, loss_backward,
    optimizer_step, bind, gets, call, set_grads, set_params_opt, modify, log,
    raise, ret, same_globals, framework_raises; cbn.
  destruct (forward F (w_training w) (w_params w) inputs) as [e|outputs] eqn:E1;
    cbn; [exists e; intuition eauto|].
  destruct (loss_fn F outputs labels) as [e|loss] eqn:E2; cbn;
    [exists e; intuition eauto|].
  destruct (backward F loss (zero_grad F (w_grads w))) as [e|g] eqn:E3; cbn;
    [exists e; intuition eauto|].
  destruct (step F (w_opt w) (w_params w) g) as [e|[o p]] eqn:E4; cbn;
    [exists e; intuition eauto 6|].
  now repeat split.
Qed.

End MonadFacts.

Section TrainLoop.

Variable F : Framework.
Variable training_loader : list (Batch F).
Variable N epoch_index : nat.
Hypothesis N_pos : 0 < N.

Local Abbreviation base := (epoch_index * length training_loader).

Lemma loop_events_cons st l rest :
  loop_events F N base st (l :: rest) =
  (fst (loop_events F N base st [l])
     ++ fst (loop_events F N base (snd (loop_events F N base st [l])) rest),
   snd (loop_events F N base (snd (loop_events F N base st [l])) rest)).
Proof.
  cbn [loop_events].
  destruct (l_i st mod N =? N - 1); cbn [fst snd];
    match goal with
    | |- context [loop_events F N base ?s rest] =>
        destruct (loop_events F N base s rest) as [evs st']
    end; reflexivity.
Qed.

Lemma train_iter_cases data st w :
  match train_iter training_loader N epoch_index data st w with
  | (Ok st', w') =>
      exists l, same_globals w w' /\
                w_trace w' = w_trace w ++ fst (loop_events F N base st [l]) /\
                st' = snd (loop_events F N base st [l])
  | (Raise x, w') =>
      exists err, x = FrameworkError err /\ framework_raises err /\
                  same_globals w w' /\
                  w_trace w' = w_trace w ++ [EvRaised err]
  end.
Proof.
  unfold train_iter.
  pose proof (train_batch_cases data w) as Hb.
  destruct (train_batch data w) as [[loss|x] w1] eqn:Eb.
  - rewrite (bind_Ok _ _ _ Eb). destruct Hb as [Hg Ht].
    destruct N as [|n] eqn:EN; [lia|].
    unfold bind, log, modify, py_mod, py_div, ret.
    cbn [loop_events fst snd].
    destruct (l_i st mod S n =? S n - 1); cbn [fst snd].
    + exists (item F loss). cbn. rewrite Ht, <- !app_assoc.
      split; [unfold same_globals in *; cbn; tauto|]. now split.
    + exists (item F loss). cbn. rewrite Ht.
      split; [unfold same_globals in *; cbn; tauto|]. now split.
  - rewrite (bind_Raise _ _ _ Eb). exact Hb.
Qed.

Lemma train_loop_shape batches : forall st w,
  exists ls,
    match train_loop training_loader N epoch_index batches st w with
    | (Ok st', w') =>
        length ls = length batches /\ same_globals w w' /\
        w_trace w' = w_trace w ++ fst (loop_events F N base st ls) /\
        st' = snd (loop_events F N base st ls)
    | (Raise x, w') =>
        exists err, x = FrameworkError err /\ framework_raises err /\
                    length ls < length batches /\
                    same_globals w w' /\
                    w_trace w' =
                      w_trace w ++ fst (loop_events F N base st ls)
                              ++ [EvRaised err]
    end.
Proof.
  induction batches as [|data rest IH]; intros st w.
  - exists []. cbn. repeat split. now rewrite app_nil_r.
  - cbn [train_loop].
    pose proof (train_iter_cases data st w) as Hi.
    destruct (train_iter training_loader N epoch_index data st w)
      as [[st1|x] w1] eqn:Ei.
    + rewrite (bind_Ok _ _ _ Ei).
      destruct Hi as (l & Hg & Ht & Hs).
      destruct (IH st1 w1) as (ls & Hrest).
      exists (l :: ls). rewrite loop_events_cons. cbn [fst snd].
      rewrite <- Hs.
      destruct (train_loop training_loader N epoch_index rest st1 w1)
        as [[st2|x2] w2].
      * destruct Hrest as (Hl & Hg2 & Ht2 & Hs2).
        repeat split; try (cbn; lia); try apply (same_globals_trans Hg Hg2).
        -- rewrite Ht2, Ht, <- app_assoc. reflexivity.
        -- exact Hs2.
      * destruct Hrest as (err & Hx & Hfr & Hl & Hg2 & Ht2).
        exists err. repeat split; try assumption; try (cbn; lia);
          try apply (same_globals_trans Hg Hg2).
        rewrite Ht2, Ht, <- !app_assoc. reflexivity.
    + rewrite (bind_Raise _ _ _ Ei).
      destruct Hi as (err & Hx & Hfr & Hg & Ht).
      exists []. exists err. cbn. repeat split; try assumption; try lia;
        apply Hg.
Qed.

End TrainLoop.

Section Windows.

Variable N : nat.
Hypothesis N_pos : 0 < N.

Lemma Qsum_snoc pre l : Qsum (pre ++ [l]) = (Qsum pre + l)%Q.
Proof. unfold Qsum. now rewrite fold_left_app. Qed.

Lemma window_mean_first c r :
  length c = N -> window_mean N (c ++ r) 0 = Qdiv_nat (Qsum c) N.
Proof.
  intros Hc. unfold window_mean. cbn [Nat.mul skipn].
  rewrite firstn_app, Hc, Nat.sub_diag, firstn_O, app_nil_r.
  rewrite <- Hc at 1. now rewrite firstn_all.
Qed.

Lemma window_mean_next c r j :
  length c = N -> window_mean N (c ++ r) (S j) = window_mean N r j.
Proof.
  intros Hc. unfold window_mean. f_equal. f_equal. f_equal.
  rewrite skipn_app, Hc.
  rewrite skipn_all2 by (rewrite Hc; cbn; lia).
  cbn [app]. f_equal. cbn. lia.
Qed.

Lemma window_count_next {A} (c r : list A) :
  length c = N -> length (c ++ r) / N = S (length r / N).
Proof.
  intros Hc. rewrite length_app, Hc.
  replace (N + length r) with (1 * N + length r) by lia.
  rewrite Nat.div_add_l by lia. reflexivity.
Qed.

Lemma window_means_chunk c r :
  length c = N ->
  window_means N (c ++ r) = Qdiv_nat (Qsum c) N :: window_means N r.
Proof.
  intros Hc. unfold window_means.
  rewrite window_count_next by exact Hc. cbn [seq map].
  rewrite window_mean_first by exact Hc. f_equal.
  rewrite <- seq_shift, map_map.
  apply map_ext. intros j. now apply window_mean_next.
Qed.

Lemma window_means_short ls : length ls < N -> window_means N ls = [].
Proof.
  intros H. unfold window_means. now rewrite Nat.div_small.
Qed.

Lemma length_window_means ls : length (window_means N ls) = length ls / N.
Proof. unfold window_means. now rewrite length_map, length_seq. Qed.

Lemma last_cons {A} (a d : A) l : last (a :: l) d = last l a.
Proof.
  revert a d. induction l as [|b l IH]; intros a d; [reflexivity|].
  change (last (a :: b :: l) d) with (last (b :: l) d).
  now rewrite (IH b d), (IH b a).
Qed.

End Windows.

Section LoopEvents.

Variable F : Framework.
Variable N base : nat.
Hypothesis N_pos : 0 < N.

Lemma steps_from_S k n :
  steps_from N base k (S n) = (base + (k + 1) * N) :: steps_from N base (S k) n.
Proof.
  unfold steps_from. cbn [seq map]. f_equal.
  - f_equal. f_equal. lia.
  - rewrite <- seq_shift, map_map. apply map_ext. intros j. f_equal. f_equal.
    lia.
Qed.

Lemma loop_events_scalars ls : forall pre k st,
  length pre < N ->
  l_i st = k * N + length pre ->
  running_loss st = Qsum pre ->
  scalars (fst (loop_events F N base st ls)) =
  combine (window_means N (pre ++ ls))
          (steps_from N base k (length (pre ++ ls) / N)).
Proof.
  induction ls as [|l rest IH]; intros pre k st Hpre Hi Hr.
  - rewrite app_nil_r, window_means_short by assumption. reflexivity.
  - cbn [loop_events].
    assert (Hmod : l_i st mod N = length pre).
    { rewrite Hi, Nat.add_comm, Nat.Div0.mod_add. now apply Nat.mod_small. }
    rewrite Hmod.
    destruct (length pre =? N - 1) eqn:Ec.
    + apply Nat.eqb_eq in Ec.
      assert (Hc : length (pre ++ [l]) = N) by (rewrite length_app; cbn; lia).
      specialize (IH [] (S k) (mkLocals (S (l_i st)) 0
                                 (Qdiv_nat (running_loss st + l) N))).
      cbn [app length l_i running_loss] in IH.
      destruct (loop_events F N base _ rest) as [evs st'].
      cbn [fst scalars flat_map app]. cbn [fst] in IH.
      change (flat_map _ evs) with (scalars evs).
      rewrite IH by (try reflexivity; lia).
      replace (pre ++ l :: rest) with ((pre ++ [l]) ++ rest)
        by (now rewrite <- app_assoc).
      rewrite window_means_chunk, window_count_next by assumption.
      rewrite steps_from_S. cbn [combine]. f_equal.
      rewrite Qsum_snoc, Hr. f_equal. lia.
    + apply Nat.eqb_neq in Ec.
      specialize (IH (pre ++ [l]) k
                     (mkLocals (S (l_i st)) (running_loss st + l)
                               (last_loss st))).
      cbn [l_i running_loss] in IH.
      destruct (loop_events F N base _ rest) as [evs st'].
      cbn [fst scalars flat_map app]. cbn [fst] in IH.
      change (flat_map _ evs) with (scalars evs).
      rewrite IH.
      * now rewrite <- app_assoc.
      * rewrite length_app. cbn. lia.
      * rewrite length_app. cbn. lia.
      * now rewrite Qsum_snoc, Hr.
Qed.

Lemma loop_events_train_losses ls : forall st,
  train_losses (fst (loop_events F N base st ls)) = ls.
Proof.
  induction ls as [|l rest IH]; intros st; [reflexivity|].
  cbn [loop_events].
  destruct (l_i st mod N =? N - 1);
    match goal with
    | |- context [loop_events F N base ?s rest] =>
        specialize (IH s); destruct (loop_events F N base s rest)
    end; cbn in *; now rewrite IH.
Qed.

Lemma loop_events_last_loss ls : forall st,
  last_loss (snd (loop_events F N base st ls)) =
  last (map fst (scalars (fst (loop_events F N base st ls)))) (last_loss st).
Proof.
  induction ls as [|l rest IH]; intros st; [reflexivity|].
  cbn [loop_events].
  destruct (l_i st mod N =? N - 1);
    match goal with
    | |- context [loop_events F N base ?s rest] =>
        specialize (IH s); destruct (loop_events F N base s rest)
    end; cbn [fst snd scalars flat_map app map] in *.
  - rewrite last_cons. exact IH.
  - exact IH.
Qed.

End LoopEvents.

Section Validation.

Variable F : Framework.
Variable validation_loader : list (Batch F).

Lemma eval_losses_length flag p (batches : list (Batch F)) :
  match snd (eval_losses flag p batches) with
  | None => length (fst (eval_losses flag p batches)) = length batches
  | Some _ => length (fst (eval_losses flag p batches)) < length batches
  end.
Proof.
  induction batches as [|[x y] rest IH]; cbn; [reflexivity|].
  destruct (forward F flag p x) as [e|o]; cbn; [lia|].
  destruct (loss_fn F o y) as [e|l]; cbn; [lia|].
  destruct (eval_losses flag p rest) as [ls [e|]]; cbn in *; lia.
Qed.

Lemma eval_losses_raises flag p (batches : list (Batch F)) e :
  snd (eval_losses flag p batches) = Some e -> framework_raises e.
Proof.
  unfold framework_raises.
  induction batches as [|[x y] rest IH]; cbn; [discriminate|].
  destruct (forward F flag p x) as [e1|o] eqn:E1; cbn.
  - intros [= <-]. eauto.
  - destruct (loss_fn F o y) as [e2|l] eqn:E2; cbn.
    + intros [= <-]. eauto.
    + destruct (eval_losses flag p rest) as [ls r]. exact IH.
Qed.

Lemma validation_loop_eq batches : forall idx acc (w : World F),
  validation_loop batches idx acc w =
  match eval_losses (w_training w) (w_params w) batches with
  | (vls, Some e) =>
      (Raise (FrameworkError e),
       with_i_trace w (Some (idx + length vls))
                    (w_trace w ++ map EvValBatch vls ++ [EvRaised e]))
  | (vls, None) =>
      (Ok (fold_left Qplus vls acc),
       with_i_trace w
         (match batches with
          | [] => g_i w
          | _ :: _ => Some (idx + length batches - 1)
          end)
         (w_trace w ++ map EvValBatch vls))
  end.
Proof.
  induction batches as [|[x y] rest IH]; intros idx acc w.
  - cbn. unfold ret, with_i_trace. rewrite app_nil_r. now destruct w.
  - cbn [validation_loop eval_losses].
    unfold bind at 1. unfold set_i, modify.
    unfold bind at 1. unfold model, bind, gets, call, log, modify, raise, ret.
    cbn [w_training w_params w_trace w_grads w_opt epoch_number best_vloss g_i].
    destruct (forward F (w_training w) (w_params w) x) as [e|o].
    + cbn. unfold with_i_trace. now rewrite Nat.add_0_r.
    + destruct (loss_fn F o y) as [e|l].
      * cbn. unfold with_i_trace. now rewrite Nat.add_0_r.
      * rewrite IH. cbn [w_training w_params w_trace].
        destruct (eval_losses (w_training w) (w_params w) rest)
          as [vls [e|]]; unfold with_i_trace; cbn.
        -- rewrite <- app_assoc, Nat.add_succ_r. reflexivity.
        -- rewrite <- app_assoc. cbn. do 3 f_equal.
           destruct rest; f_equal; cbn; lia.
Qed.

Lemma validation_pass_eq (w : World F) :
  validation_pass validation_loader w =
  let w0 := mkWorld (w_params w) (w_grads w) (w_opt w) false
                    (epoch_number w) (best_vloss w) (g_i w) (w_trace w) in
  match eval_losses false (w_params w) validation_loader with
  | (vls, Some e) =>
      (Raise (FrameworkError e),
       with_i_trace w0 (Some (length vls))
                    (w_trace w ++ map EvValBatch vls ++ [EvRaised e]))
  | (vls, None) =>
      let w1 := with_i_trace w0 (i_after validation_loader (g_i w))
                             (w_trace w ++ map EvValBatch vls) in
      match i_after validation_loader (g_i w) with
      | Some i => (Ok (Qdiv_nat (Qsum vls) (i + 1)), w1)
      | None => (Raise (NameError "i"), w1)
      end
  end.
Proof.
  unfold validation_pass. unfold bind at 1. unfold model_train, modify.
  unfold bind at 1. rewrite validation_loop_eq.
  cbn [w_training w_params w_trace g_i].
  destruct (eval_losses false (w_params w) validation_loader) as [vls [e|]].
  - reflexivity.
  - unfold bind, read_i, i_after, with_i_trace. cbn.
    destruct validation_loader as [|b rest]; cbn.
    + destruct (g_i w) as [i|]; [|reflexivity].
      unfold py_div. rewrite Nat.add_1_r. reflexivity.
    + unfold py_div. rewrite Nat.sub_0_r, Nat.add_1_r. reflexivity.
Qed.

Lemma track_best_eq timestamp v (w : World F) :
  track_best timestamp v w =
  if Qltb v (best_vloss w) then
    (Ok tt,
     mkWorld (w_params w) (w_grads w) (w_opt w) (w_training w)
             (epoch_number w) v (g_i w)
             (w_trace w ++ [EvSave timestamp (epoch_number w) (w_params w)]))
  else (Ok tt, w).
Proof.
  unfold track_best, bind, gets, set_best_vloss, modify, log, ret. cbn.
  now destruct (Qltb v (best_vloss w)).
Qed.

End Validation.

Section EpochBody.

Variable F : Framework.
Variable training_loader validation_loader : list (Batch F).
Variable timestamp : string.
Variable N : nat.
Hypothesis N_pos : 0 < N.

Lemma bind_gets {A B} (f : World F -> A) (k : A -> Prog F B) w :
  bind (gets f) k w = k (f w) w.
Proof. reflexivity. Qed.

Lemma bind_modify {B} (f : World F -> World F) (k : unit -> Prog F B) w :
  bind (modify f) k w = k tt (f w).
Proof. reflexivity. Qed.

Lemma epoch_body_outcome (w : World F) :
  epoch_outcome training_loader validation_loader timestamp N w
    (fst (epoch_body training_loader validation_loader timestamp N w))
    (snd (epoch_body training_loader validation_loader timestamp N w)).
Proof.
  destruct (epoch_body training_loader validation_loader timestamp N w)
    as [r w'] eqn:E.
  cbn [fst snd]. revert E.
  unfold epoch_body. rewrite bind_gets. unfold log at 1, model_train at 1.
  rewrite !bind_modify.
  set (w0 := mkWorld _ _ _ true _ _ _ _).
  assert (H0t : w_trace w0 = w_trace w ++ [EvPrintEpoch (epoch_number w + 1)])
    by reflexivity.
  assert (H0e : epoch_number w0 = epoch_number w) by reflexivity.
  assert (H0b : best_vloss w0 = best_vloss w) by reflexivity.
  assert (H0i : g_i w0 = g_i w) by reflexivity.
  clearbody w0.
  unfold train_one_epoch.
  destruct (train_loop_shape training_loader (epoch_number w)
              N_pos training_loader (mkLocals 0 0 0) w0) as (ls & Hls).
  unfold bind at 1. unfold bind at 1.
  destruct (train_loop training_loader N (epoch_number w) training_loader
              (mkLocals 0 0 0) w0) as [[st1|x] w1].
  - destruct Hls as (Hlen & (Hg1 & Hg2 & Hg3 & Hg4) & Ht & Hst).
    rewrite H0e in Hg2. rewrite H0b in Hg3. rewrite H0i in Hg4.
    rewrite H0t, <- app_assoc in Ht. cbn [app] in Ht.
    fold (train_events training_loader N (epoch_number w) ls) in Ht.
    unfold ret at 1. unfold bind at 1. rewrite validation_pass_eq.
    pose proof (eval_losses_length false (w_params w1) validation_loader) as Hv.
    pose proof (@eval_losses_raises F false (w_params w1) validation_loader)
      as Hfr.
    destruct (eval_losses false (w_params w1) validation_loader)
      as [vls [err|]] eqn:Ee; cbn [fst snd] in Hv, Hfr.
    + intros [= <- <-].
      apply EpochValRaised with (ls := ls) (vls := vls); try assumption;
        [now apply Hfr|].
      cbn. rewrite Ht, <- app_assoc. reflexivity.
    + cbv zeta. rewrite Hg4.
      destruct (i_after validation_loader (g_i w)) as [i|] eqn:Ei.
      * unfold log, set_epoch_number. rewrite !bind_modify.
        unfold bind at 1. rewrite track_best_eq.
        cbn [best_vloss with_i_trace w_trace w_params w_grads w_opt
             w_training epoch_number g_i].
        rewrite Hg3, Hg2, Hst.
        fold (train_result training_loader N (epoch_number w) ls).
        destruct (Qltb (Qdiv_nat (Qsum vls) (i + 1)) (best_vloss w)) eqn:Eb;
          rewrite bind_gets; unfold modify; intros [= <- <-];
          apply EpochDone with (ls := ls) (vls := vls) (i := i);
          try assumption; cbn; try rewrite Eb; try reflexivity.
        -- rewrite Ht. repeat (rewrite <- app_assoc; cbn [app]). reflexivity.
        -- rewrite Ht. repeat (rewrite <- app_assoc; cbn [app]). reflexivity.
      * intros [= <- <-].
        assert (validation_loader = [] /\ g_i w = None) as [Hnil Hgi].
        { unfold i_after in Ei. destruct validation_loader; [auto|discriminate]. }
        rewrite Hnil in Ee. cbn in Ee. injection Ee as <-.
        apply EpochNameError with (ls := ls); try assumption.
        cbn. now rewrite app_nil_r.
  - destruct Hls as (err & -> & Hfr & Hlen & (Hg1 & Hg2 & Hg3 & Hg4) & Ht).
    rewrite H0e in Hg2. rewrite H0b in Hg3.
    rewrite H0t, <- app_assoc in Ht. cbn [app] in Ht.
    fold (train_events training_loader N (epoch_number w) ls) in Ht.
    intros [= <- <-].
    apply EpochTrainRaised with (ls := ls); assumption.
Qed.

Lemma epoch_loop_outcome EPOCHS : forall w : World F,
  epochs_outcome training_loader validation_loader timestamp N EPOCHS w
    (fst (epoch_loop training_loader validation_loader timestamp N EPOCHS w))
    (snd (epoch_loop training_loader validation_loader timestamp N EPOCHS w)).
Proof.
  induction EPOCHS as [|n IH]; intros w; [constructor|].
  cbn [epoch_loop]. unfold bind.
  pose proof (epoch_body_outcome w) as Hb.
  destruct (epoch_body training_loader validation_loader timestamp N w)
    as [[[]|x] w1]; cbn [fst snd] in Hb.
  - eapply EpochsNext; [exact Hb|apply IH].
  - cbn [fst snd]. now apply EpochsAbort.
Qed.

End EpochBody.

Section TraceFacts.

Variable F : Framework.

Lemma new_events_app (w w' : World F) new :
  w_trace w' = w_trace w ++ new -> new_events w w' = new.
Proof.
  intros H. unfold new_events. rewrite H, skipn_app, skipn_all, Nat.sub_diag.
  reflexivity.
Qed.

Lemma scalars_app (a b : list (Event F)) :
  scalars (a ++ b) = scalars a ++ scalars b.
Proof. apply flat_map_app. Qed.

Lemma train_losses_app (a b : list (Event F)) :
  train_losses (a ++ b) = train_losses a ++ train_losses b.
Proof. apply flat_map_app. Qed.

Lemma val_losses_app (a b : list (Event F)) :
  val_losses (a ++ b) = val_losses a ++ val_losses b.
Proof. apply flat_map_app. Qed.

Lemma epoch_reports_app (a b : list (Event F)) :
  epoch_reports (a ++ b) = epoch_reports a ++ epoch_reports b.
Proof. apply flat_map_app. Qed.

Lemma saves_app (a b : list (Event F)) : saves (a ++ b) = saves a ++ saves b.
Proof. apply flat_map_app. Qed.

Lemma raised_app (a b : list (Event F)) :
  raised (a ++ b) = raised a ++ raised b.
Proof. apply flat_map_app. Qed.

Lemma scalars_cons ev (a : list (Event F)) :
  scalars (ev :: a) =
  match ev with EvAddScalar v x => [(v, x)] | _ => [] end ++ scalars a.
Proof. reflexivity. Qed.

Lemma train_losses_cons ev (a : list (Event F)) :
  train_losses (ev :: a) =
  match ev with EvTrainBatch l => [l] | _ => [] end ++ train_losses a.
Proof. reflexivity. Qed.

Lemma val_losses_cons ev (a : list (Event F)) :
  val_losses (ev :: a) =
  match ev with EvValBatch l => [l] | _ => [] end ++ val_losses a.
Proof. reflexivity. Qed.

Lemma epoch_reports_cons ev (a : list (Event F)) :
  epoch_reports (ev :: a) =
  match ev with EvAddScalars t v x => [(t, v, x)] | _ => [] end
    ++ epoch_reports a.
Proof. reflexivity. Qed.

Lemma saves_cons ev (a : list (Event F)) :
  saves (ev :: a) =
  match ev with EvSave _ e p => [(e, p)] | _ => [] end ++ saves a.
Proof. reflexivity. Qed.

Lemma raised_cons ev (a : list (Event F)) :
  raised (ev :: a) =
  match ev with EvRaised e => [e] | _ => [] end ++ raised a.
Proof. reflexivity. Qed.

Lemma scalars_nil : scalars (F:=F) [] = [].
Proof. reflexivity. Qed.

Lemma train_losses_nil : train_losses (F:=F) [] = [].
Proof. reflexivity. Qed.

Lemma val_losses_nil : val_losses (F:=F) [] = [].
Proof. reflexivity. Qed.

Lemma epoch_reports_nil : epoch_reports (F:=F) [] = [].
Proof. reflexivity. Qed.

Lemma saves_nil : saves (F:=F) [] = [].
Proof. reflexivity. Qed.

Lemma raised_nil : raised (F:=F) [] = [].
Proof. reflexivity. Qed.

Lemma loop_events_flat_map {B} (f : Event F -> list B) N base :
  (forall l, f (EvTrainBatch l) = []) ->
  (forall n q, f (EvPrintBatchLoss n q) = []) ->
  (forall v x, f (EvAddScalar v x) = []) ->
  forall ls st, flat_map f (fst (loop_events F N base st ls)) = [].
Proof.
  intros H1 H2 H3. induction ls as [|l rest IH]; intros st; [reflexivity|].
  cbn [loop_events].
  destruct (l_i st mod N =? N - 1);
    match goal with
    | |- context [loop_events F N base ?s rest] =>
        specialize (IH s); destruct (loop_events F N base s rest)
    end; cbn [fst flat_map] in *; now rewrite ?H1, ?H2, ?H3, IH.
Qed.

Lemma val_batches_flat_map {B} (f : Event F -> list B) vls :
  (forall l, f (EvValBatch l) = []) ->
  flat_map f (map (@EvValBatch F) vls) = [].
Proof.
  intros H. induction vls as [|l rest IH]; [reflexivity|].
  cbn. now rewrite H, IH.
Qed.

Lemma val_losses_val_batches vls :
  val_losses (map (@EvValBatch F) vls) = vls.
Proof.
  induction vls as [|l rest IH]; [reflexivity|].
  cbn [map]. now rewrite val_losses_cons, IH.
Qed.

Variable training_loader : list (Batch F).
Variable N : nat.

Lemma raised_train_events e ls :
  raised (train_events training_loader N e ls) = [].
Proof. now apply loop_events_flat_map. Qed.

Lemma saves_train_events e ls :
  saves (train_events training_loader N e ls) = [].
Proof. now apply loop_events_flat_map. Qed.

Lemma epoch_reports_train_events e ls :
  epoch_reports (train_events training_loader N e ls) = [].
Proof. now apply loop_events_flat_map. Qed.

Lemma val_losses_train_events e ls :
  val_losses (train_events training_loader N e ls) = [].
Proof. now apply loop_events_flat_map. Qed.

Lemma train_losses_train_events e ls :
  train_losses (train_events training_loader N e ls) = ls.
Proof. apply loop_events_train_losses. Qed.

Lemma scalars_val_batches vls : scalars (map (@EvValBatch F) vls) = [].
Proof. now apply val_batches_flat_map. Qed.

Lemma train_losses_val_batches vls :
  train_losses (map (@EvValBatch F) vls) = [].
Proof. now apply val_batches_flat_map. Qed.

Lemma epoch_reports_val_batches vls :
  epoch_reports (map (@EvValBatch F) vls) = [].
Proof. now apply val_batches_flat_map. Qed.

Lemma saves_val_batches vls : saves (map (@EvValBatch F) vls) = [].
Proof. now apply val_batches_flat_map. Qed.

Lemma raised_val_batches vls : raised (map (@EvValBatch F) vls) = [].
Proof. now apply val_batches_flat_map. Qed.

End TraceFacts.

Create Rewrite HintDb trace_proj.

#[export] Hint Rewrite
  scalars_app train_losses_app val_losses_app epoch_reports_app saves_app
  raised_app scalars_cons train_losses_cons val_losses_cons
  epoch_reports_cons saves_cons raised_cons
  raised_train_events saves_train_events epoch_reports_train_events
  val_losses_train_events train_losses_train_events
  scalars_val_batches train_losses_val_batches epoch_reports_val_batches
  saves_val_batches raised_val_batches val_losses_val_batches
  scalars_nil train_losses_nil val_losses_nil epoch_reports_nil saves_nil
  raised_nil app_nil_r : trace_proj.

Ltac trace_simpl :=
  repeat (autorewrite with trace_proj; cbn [app]).

(** ** Runs of the epoch loop *)

Section Runs.

Variable F : Framework.
Variable training_loader validation_loader : list (Batch F).
Variable timestamp : string.
Variable N : nat.
Hypothesis N_pos : 0 < N.

Local Abbreviation epoch_outcome :=
  (epoch_outcome training_loader validation_loader timestamp N).
Local Abbreviation epochs_outcome :=
  (epochs_outcome training_loader validation_loader timestamp N).
Local Abbreviation run := (run training_loader validation_loader timestamp N).
Local Abbreviation epoch_body :=
  (epoch_body training_loader validation_loader timestamp N).

Lemma run_eq EPOCHS (w : World F) :
  run EPOCHS w =
  epoch_loop training_loader validation_loader timestamp N EPOCHS
    (mkWorld (w_params w) (w_grads w) (w_opt w) (w_training w)
             (epoch_number w) BEST_VLOSS_INIT (g_i w) (w_trace w)).
Proof. reflexivity. Qed.

Lemma run_outcome EPOCHS (w : World F) :
  epochs_outcome EPOCHS
    (mkWorld (w_params w) (w_grads w) (w_opt w) (w_training w)
             (epoch_number w) BEST_VLOSS_INIT (g_i w) (w_trace w))
    (fst (run EPOCHS w)) (snd (run EPOCHS w)).
Proof. rewrite run_eq. now apply epoch_loop_outcome. Qed.

Lemma epochs_outcome_counter EPOCHS (w : World F) r w' :
  epochs_outcome EPOCHS w r w' ->
  match r with
  | Ok _ => epoch_number w' = epoch_number w + EPOCHS
  | Raise _ => epoch_number w' < epoch_number w + EPOCHS
  end.
Proof.
  induction 1 as [w|n w w1 r w' H1 _ IH|n w x w' H1].
  - lia.
  - inversion H1; subst. destruct r; lia.
  - inversion H1; subst; lia.
Qed.

Lemma epoch_outcome_fail_fast (w : World F) r w' :
  epoch_outcome w r w' ->
  exists new, w_trace w' = w_trace w ++ new /\ fail_fast r new.
Proof.
  intros H; inversion H; subst; eexists; (split; [eassumption|]);
    unfold fail_fast.
  - split; [assumption|].
    eexists (_ :: _). split; [reflexivity|]. now trace_simpl.
  - split; [assumption|].
    eexists (_ :: _ ++ _). split.
    + cbn [app]. now rewrite <- app_assoc.
    + now trace_simpl.
  - now trace_simpl.
  - trace_simpl. now destruct (Qltb _ _).
Qed.

Lemma epochs_outcome_fail_fast EPOCHS (w : World F) r w' :
  epochs_outcome EPOCHS w r w' ->
  exists new, w_trace w' = w_trace w ++ new /\ fail_fast r new.
Proof.
  induction 1 as [w|n w w1 r w' H1 _ IH|n w x w' H1].
  - exists []. split; [now rewrite app_nil_r|reflexivity].
  - destruct (epoch_outcome_fail_fast H1) as (new1 & Ht1 & Hf1).
    destruct IH as (new2 & Ht2 & Hf2). cbn in Hf1.
    exists (new1 ++ new2). split; [now rewrite Ht2, Ht1, app_assoc|].
    destruct r as [u|[| |e]]; cbn in *; trace_simpl;
      try (now rewrite Hf1, Hf2).
    destruct Hf2 as (Hfr & pre & -> & Hpre). split; [assumption|].
    exists (new1 ++ pre). split; [now rewrite app_assoc|].
    trace_simpl. now rewrite Hf1, Hpre.
  - now apply epoch_outcome_fail_fast.
Qed.

End Runs.

(** * The epoch counter and failures *)

Lemma raised_In {F} (e : ExtErr F) (evs : list (Event F)) :
  In (EvRaised e) evs -> In e (raised evs).
Proof.
  induction evs as [|ev rest IH]; [easy|].
  intros [->|H]; rewrite raised_cons.
  - now left.
  - apply in_or_app. right. now apply IH.
Qed.

(** A run completes when no framework operation raises and the validation
    loader is not empty. *)
Lemma run_completes {F} (training_loader validation_loader : list (Batch F))
  timestamp N EPOCHS (w : World F) :
  0 < N -> infallible F -> validation_loader <> [] ->
  fst (run training_loader validation_loader timestamp N EPOCHS w) = Ok tt.
Proof.
  intros HN Hinf Hvl.
  pose proof (run_outcome training_loader validation_loader timestamp HN
                EPOCHS w) as H.
  induction H as [w0|n w0 w1 r w' H1 _ IH|n w0 x w' H1]; try easy.
  inversion H1; subst; try contradiction; now exfalso; eapply Hinf; eauto.
Qed.

(** C9: when a run of the epoch loop over [EPOCHS] epochs completes, the
    global [epoch_number] is its value before the run plus [EPOCHS] (for
    every [EPOCHS], zero included). *)
Theorem epoch_counter_after_run {F}
  (training_loader validation_loader : list (Batch F)) timestamp N EPOCHS
  (w : World F) :
  0 < N ->
  fst (run training_loader validation_loader timestamp N EPOCHS w) = Ok tt ->
  epoch_number (snd (run training_loader validation_loader timestamp N
                         EPOCHS w))
  = epoch_number w + EPOCHS.
Proof.
  intros HN Hok.
  pose proof (run_outcome training_loader validation_loader timestamp HN
                EPOCHS w) as H.
  apply epochs_outcome_counter in H; try assumption.
  rewrite Hok in H. exact H.
Qed.

Lemma epoch_counter_after_run_witness :
  0 < 2 /\
  fst (run toy_train3 toy_val2 "ts" 2 5 toy_world) = Ok tt /\
  epoch_number (snd (run toy_train3 toy_val2 "ts" 2 5 toy_world))
  = epoch_number toy_world + 5.
Proof.
  split; [lia|]. split; [reflexivity|].
  apply epoch_counter_after_run; [lia|reflexivity].
Defined.

(** C8: if a framework operation (model, loss function, backward pass or
    optimizer step) raises [e] during a run, the run ends with exactly
    that exception, the raising call is the last thing the run did (no
    batch, report, snapshot or epoch follows it, and no call raised before
    it), and the epoch in which it happened is not counted. *)
Theorem framework_error_aborts_run {F}
  (training_loader validation_loader : list (Batch F)) timestamp N EPOCHS
  (w : World F) (e : ExtErr F) :
  0 < N ->
  In (EvRaised e)
     (new_events w (snd (run training_loader validation_loader timestamp N
                             EPOCHS w))) ->
  framework_raises e /\
  fst (run training_loader validation_loader timestamp N EPOCHS w)
  = Raise (FrameworkError e) /\
  (exists pre,
      new_events w (snd (run training_loader validation_loader timestamp N
                             EPOCHS w))
      = pre ++ [EvRaised e] /\ raised pre = []) /\
  epoch_number (snd (run training_loader validation_loader timestamp N
                         EPOCHS w))
  < epoch_number w + EPOCHS.
Proof.
  intros HN Hin.
  pose proof (run_outcome training_loader validation_loader timestamp HN
                EPOCHS w) as Hout.
  pose proof Hout as Hc.
  apply epochs_outcome_counter in Hc; try assumption.
  apply epochs_outcome_fail_fast in Hout; try assumption.
  destruct Hout as (new & Ht & Hff).
  cbn [w_trace epoch_number] in Ht, Hc.
  apply new_events_app in Ht. rewrite Ht in *. clear Ht.
  apply raised_In in Hin.
  destruct (fst (run training_loader validation_loader timestamp N EPOCHS w))
    as [u|[| |e']]; cbn in Hff; try (rewrite Hff in Hin; easy).
  destruct Hff as (Hfr & pre & -> & Hpre).
  rewrite raised_app, Hpre in Hin. cbn in Hin.
  destruct Hin as [<-|[]].
  repeat split; try assumption. now exists pre.
Qed.

Lemma framework_error_aborts_run_witness :
  0 < 2 /\
  In (EvRaised (F:=toy) "shape mismatch"%string)
     (new_events toy_world
        (snd (run (toy_train3 ++ [toy_bad_batch]) toy_val2 "ts" 2 3
                  toy_world))) /\
  fst (run (toy_train3 ++ [toy_bad_batch]) toy_val2 "ts" 2 3 toy_world)
  = Raise (FrameworkError "shape mismatch"%string).
Proof.
  split; [lia|].
  assert (Hin : In (EvRaised (F:=toy) "shape mismatch"%string)
                   (new_events toy_world
                      (snd (run (toy_train3 ++ [toy_bad_batch]) toy_val2
                                "ts" 2 3 toy_world)))).
  { vm_compute. tauto. }
  split; [exact Hin|].
  apply (@framework_error_aborts_run toy
           (toy_train3 ++ [toy_bad_batch]) toy_val2 "ts" 2 3 toy_world
           "shape mismatch"%string); [lia|exact Hin].
Defined.

(** * The best-validation tracker *)

Lemma Qltb_lt a b : Qltb a b = true <-> (a < b)%Q.
Proof.
  unfold Qltb. rewrite Qlt_alt.
  destruct (a ?= b)%Q; split; congruence.
Qed.




(** C5, as the code has it: [best_vloss] starts at the finite value
    [1_000_000.]; when the first epoch of a run completes with mean
    validation loss [v], the tracker is replaced and a snapshot saved if
    [v < 1000000], and neither happens otherwise. *)
Theorem first_epoch_replaces_below_init {F}
  (training_loader validation_loader : list (Batch F)) timestamp N
  (w : World F) :
  0 < N ->
  let r := fst (run training_loader validation_loader timestamp N 1 w) in
  let w' := snd (run training_loader validation_loader timestamp N 1 w) in
  let new := new_events w w' in
  r = Ok tt ->
  exists a v,
    epoch_reports new = [(a, v, epoch_number w + 1)] /\
    ((v < BEST_VLOSS_INIT)%Q ->
     best_vloss w' = v /\ saves new = [(epoch_number w, w_params w')]) /\
    (~ (v < BEST_VLOSS_INIT)%Q ->
     best_vloss w' = BEST_VLOSS_INIT /\ saves new = []).
Proof.
  intros HN r w' new Hr. subst r w' new.
  pose proof (run_outcome training_loader validation_loader timestamp HN 1 w)
    as H.
  rewrite Hr in H.
  inversion H as [|n w0 w1 r0 w2 H1 H2|]; subst.
  inversion H2; subst.
  inversion H1 as [| |
                  |ls vls i w1 Hl Hev Hi avg_loss avg_vloss Ht He Hb Hgi Hr0 Hw].
  cbn [w_trace epoch_number best_vloss] in Ht, Hb.
  apply new_events_app in Ht. rewrite Ht.
  subst avg_loss avg_vloss.
  exists (train_result training_loader N (epoch_number w) ls),
         (Qdiv_nat (Qsum vls) (i + 1)).
  destruct (Qltb (Qdiv_nat (Qsum vls) (i + 1)) BEST_VLOSS_INIT) eqn:Eb;
    trace_simpl; (split; [reflexivity|]); split; intros Hlt.
  - now split.
  - apply Qltb_lt in Eb. contradiction.
  - apply Qltb_lt in Hlt. congruence.
  - now split.
Qed.

Lemma first_epoch_replaces_below_init_witness :
  0 < 2 /\
  fst (run toy_train3 toy_val2 "ts" 2 1 toy_world) = Ok tt /\
  exists a v,
    epoch_reports
      (new_events toy_world (snd (run toy_train3 toy_val2 "ts" 2 1 toy_world)))
    = [(a, v, 1)].
Proof.
  split; [lia|]. split; [reflexivity|].
  destruct (@first_epoch_replaces_below_init toy toy_train3 toy_val2 "ts" 2
              toy_world) as (a & v & Hrep & _); [lia|reflexivity|].
  exists a, v. exact Hrep.
Defined.

(** C5 as stated fails: a first epoch whose mean validation loss is
    2000000 is not below the initial [best_vloss]; the run completes, the
    tracker keeps 1000000 and nothing is saved. *)
Lemma first_epoch_above_init_not_saved :
  let res := run toy_train3 [toy_batch 2000000] "ts" REPORT_EVERY 1
                 toy_world in
  let new := new_events toy_world (snd res) in
  fst res = Ok tt /\
  map (fun r => snd (fst r)) (epoch_reports new) = [Qdiv_nat (0 + 2000000) 1] /\
  ~ (Qdiv_nat (0 + 2000000) 1 < BEST_VLOSS_INIT)%Q /\
  saves new = [] /\
  best_vloss (snd res) = BEST_VLOSS_INIT.
Proof.
  cbv zeta. repeat split; try reflexivity.
  unfold Qlt. vm_compute. discriminate.
Qed.

(** * The validation pass *)

Lemma i_after_idem {F} (batches : list (Batch F)) gi :
  i_after batches (i_after batches gi) = i_after batches gi.
Proof. now destruct batches. Qed.

Lemma tb_validation_loop_eq {F} (batches : list (Batch F)) :
  forall acc (w : World F),
  tb_validation_loop batches acc w =
  match eval_losses (w_training w) (w_params w) batches with
  | (vls, Some e) =>
      (Raise (FrameworkError e),
       with_i_trace w (g_i w)
                    (w_trace w ++ map EvValBatch vls ++ [EvRaised e]))
  | (vls, None) =>
      (Ok (fold_left Qplus vls acc),
       with_i_trace w (g_i w) (w_trace w ++ map EvValBatch vls))
  end.
Proof.
  induction batches as [|[x y] rest IH]; intros acc w.
  - cbn. unfold ret, with_i_trace. rewrite app_nil_r. now destruct w.
  - cbn [tb_validation_loop eval_losses].
    unfold bind at 1. unfold model, bind, gets, call, log, modify, raise, ret.
    destruct (forward F (w_training w) (w_params w) x) as [e|o];
      [reflexivity|].
    destruct (loss_fn F o y) as [e|l]; [reflexivity|].
    rewrite IH. cbn [w_training w_params w_trace g_i].
    destruct (eval_losses (w_training w) (w_params w) rest) as [vls [e|]];
      unfold with_i_trace; cbn; now rewrite <- app_assoc.
Qed.

Lemma tb_validation_check_eq {F} (validation_loader : list (Batch F))
  (w : World F) :
  tb_validation_check validation_loader w =
  match eval_losses false (w_params w) validation_loader with
  | (vls, Some e) =>
      (Raise (FrameworkError e),
       mkWorld (w_params w) (w_grads w) (w_opt w) false (epoch_number w)
               (best_vloss w) (g_i w)
               (w_trace w ++ map EvValBatch vls ++ [EvRaised e]))
  | (vls, None) =>
      (Ok (fold_left Qplus vls 0%Q),
       mkWorld (w_params w) (w_grads w) (w_opt w) true (epoch_number w)
               (best_vloss w) (g_i w) (w_trace w ++ map EvValBatch vls))
  end.
Proof.
  unfold tb_validation_check, model_train. rewrite bind_modify.
  unfold bind at 1. rewrite tb_validation_loop_eq.
  cbn [w_training w_params].
  destruct (eval_losses false (w_params w) validation_loader) as [vls [e|]];
    [reflexivity|].
  now rewrite bind_modify.
Qed.

(** C4: a validation pass writes neither the parameters nor the gradients
    nor the optimizer state, whatever the state and the validation
    batches, and a second pass right after the first returns what the
    first returned: the same mean validation loss, or the same exception.
    The same holds of the validation check of the TensorBoard notebook. *)
Theorem validation_pass_read_only {F} (validation_loader : list (Batch F))
  (w : World F) :
  (let first := validation_pass validation_loader w in
   let second := validation_pass validation_loader (snd first) in
   w_params (snd first) = w_params w /\
   w_grads (snd first) = w_grads w /\
   w_opt (snd first) = w_opt w /\
   fst second = fst first) /\
  (let first := tb_validation_check validation_loader w in
   let second := tb_validation_check validation_loader (snd first) in
   w_params (snd first) = w_params w /\
   w_grads (snd first) = w_grads w /\
   w_opt (snd first) = w_opt w /\
   fst second = fst first).
Proof.
  split; cbv zeta.
  - rewrite (validation_pass_eq validation_loader w). cbv zeta.
    destruct (eval_losses false (w_params w) validation_loader)
      as [vls [e|]] eqn:E.
    + cbn [fst snd]. rewrite validation_pass_eq.
      cbn [w_params with_i_trace]. rewrite E. now repeat split.
    + destruct (i_after validation_loader (g_i w)) as [i|] eqn:Ei;
        cbn [fst snd]; rewrite validation_pass_eq;
        cbn [w_params with_i_trace g_i]; rewrite E; cbv zeta;
        rewrite <- Ei, i_after_idem, Ei; now repeat split.
  - rewrite (tb_validation_check_eq validation_loader w).
    destruct (eval_losses false (w_params w) validation_loader)
      as [vls [e|]] eqn:E; cbn [fst snd]; rewrite tb_validation_check_eq;
      cbn [w_params]; rewrite E; now repeat split.
Qed.



(** * The order of training, validation and persistence *)

Section Phases.

Variable F : Framework.

Lemma phases_from_app (a b : list (Event F)) ph :
  phases_from ph (a ++ b) =
  match phases_from ph a with
  | Some ph' => phases_from ph' b
  | None => None
  end.
Proof.
  revert ph. induction a as [|ev a IH]; intros ph; [reflexivity|].
  cbn [app phases_from]. destruct (phase_step ph ev); [apply IH|reflexivity].
Qed.

Lemma phases_loop_events N base ls : forall st,
  phases_from Training (fst (loop_events F N base st ls)) = Some Training.
Proof.
  induction ls as [|l rest IH]; intros st; [reflexivity|].
  cbn [loop_events].
  destruct (l_i st mod N =? N - 1);
    match goal with
    | |- context [loop_events F N base ?s rest] =>
        specialize (IH s); destruct (loop_events F N base s rest)
    end; cbn in *; exact IH.
Qed.

Lemma phases_val_batches vls ph :
  ph <> Persisted ->
  exists ph', phases_from ph (map (@EvValBatch F) vls) = Some ph' /\
              ph' <> Persisted.
Proof.
  revert ph. induction vls as [|l rest IH]; intros ph Hph.
  - now exists ph.
  - cbn [map phases_from phase_step].
    destruct ph; try contradiction; now apply IH.
Qed.

Variable training_loader validation_loader : list (Batch F).
Variable timestamp : string.
Variable N : nat.
Hypothesis N_pos : 0 < N.

Lemma epoch_outcome_phases (w : World F) r w' :
  epoch_outcome training_loader validation_loader timestamp N w r w' ->
  exists new, w_trace w' = w_trace w ++ new /\
              forall ph, exists ph', phases_from ph new = Some ph'.
Proof.
  intros H; inversion H; subst; eexists; (split; [eassumption|]); intros ph;
    cbn [phases_from phase_step]; unfold train_events;
    rewrite ?phases_from_app, phases_loop_events; cbv iota;
    rewrite ?phases_from_app.
  - now eexists.
  - destruct (@phases_val_batches vls Training) as (ph' & -> & _); [easy|].
    now eexists.
  - now eexists.
  - destruct (@phases_val_batches vls Training) as (ph' & -> & _); [easy|].
    destruct (Qltb _ _); now eexists.
Qed.

Lemma epochs_outcome_phases EPOCHS (w : World F) r w' :
  epochs_outcome training_loader validation_loader timestamp N EPOCHS w r w' ->
  exists new, w_trace w' = w_trace w ++ new /\
              forall ph, exists ph', phases_from ph new = Some ph'.
Proof.
  induction 1 as [w|n w w1 r w' H1 _ IH|n w x w' H1].
  - exists []. split; [now rewrite app_nil_r|]. intros ph. now exists ph.
  - destruct (epoch_outcome_phases H1) as (new1 & Ht1 & Hp1).
    destruct IH as (new2 & Ht2 & Hp2).
    exists (new1 ++ new2). split; [now rewrite Ht2, Ht1, app_assoc|].
    intros ph. rewrite phases_from_app.
    destruct (Hp1 ph) as (ph1 & ->). apply Hp2.
  - eapply epoch_outcome_phases; eassumption.
Qed.

End Phases.

(** C2, as the code has it: in a run of the epoch loop of the training
    notebook, within every epoch no training batch is processed after a
    validation batch has been evaluated, and once a snapshot is saved no
    batch of either kind follows before the next epoch begins. *)
Theorem training_precedes_validation {F}
  (training_loader validation_loader : list (Batch F)) timestamp N EPOCHS
  (w : World F) :
  0 < N ->
  phases_ok
    (new_events w (snd (run training_loader validation_loader timestamp N
                            EPOCHS w)))
  = true.
Proof.
  intros HN.
  pose proof (run_outcome training_loader validation_loader timestamp HN
                EPOCHS w) as H.
  apply epochs_outcome_phases in H; try assumption.
  destruct H as (new & Ht & Hp). cbn [w_trace] in Ht.
  apply new_events_app in Ht. rewrite Ht. unfold phases_ok.
  now destruct (Hp Training) as (ph' & ->).
Qed.

Lemma training_precedes_validation_witness :
  0 < 2 /\
  phases_ok
    (new_events toy_world (snd (run toy_train3 toy_val2 "ts" 2 3 toy_world)))
  = true /\
  length (saves (new_events toy_world
                   (snd (run toy_train3 toy_val2 "ts" 2 3 toy_world)))) = 1.
Proof.
  split; [lia|]. split; [|reflexivity].
  apply training_precedes_validation. lia.
Defined.

(** C2 as stated fails on the TensorBoard notebook: with 1001 training
    batches and one validation batch, the validation batch is evaluated
    after training batch 1000 and before training batch 1001 of the same
    (and only) epoch. *)
Lemma tensorboard_validation_interleaved :
  let res := tb_run (repeat (toy_batch 1) 1001) [toy_batch 1] REPORT_EVERY
                    toy_world in
  let new := new_events toy_world (snd res) in
  fst res = Ok tt /\
  length (train_losses (firstn 1003 new)) = 1000 /\
  val_losses (firstn 1003 new) = [1%Q] /\
  train_losses (skipn 1003 new) = [1%Q] /\
  phases_ok new = false.
Proof.
  vm_compute. repeat split.
Qed.

(** * Training-progress reports *)

Section Reports.

Variable F : Framework.
Variable training_loader validation_loader : list (Batch F).
Variable timestamp : string.
Variable N : nat.
Hypothesis N_pos : 0 < N.

Local Abbreviation len := (length training_loader).

Lemma map_fst_combine {A B} (a : list A) (b : list B) :
  length a = length b -> map fst (combine a b) = a.
Proof.
  revert b. induction a as [|x a IH]; intros [|y b] H; try easy.
  cbn. f_equal. apply IH. now injection H.
Qed.

Lemma map_snd_combine {A B} (a : list A) (b : list B) :
  length a = length b -> map snd (combine a b) = b.
Proof.
  revert b. induction a as [|x a IH]; intros [|y b] H; try easy.
  cbn. f_equal. apply IH. now injection H.
Qed.

Lemma length_steps_from base k n : length (steps_from N base k n) = n.
Proof. unfold steps_from. now rewrite length_map, length_seq. Qed.

Lemma steps_from_sorted base n : forall k,
  StronglySorted lt (steps_from N base k n) /\
  Forall (fun x => base + k * N < x /\ x <= base + (k + n) * N)
         (steps_from N base k n).
Proof.
  induction n as [|n IH]; intros k.
  - split; constructor.
  - rewrite steps_from_S by assumption.
    destruct (IH (S k)) as [Hs Hb]. split.
    + constructor; [exact Hs|].
      eapply Forall_impl; [|exact Hb]. cbn. intros x [Hx _]. lia.
    + constructor; [nia|].
      eapply Forall_impl; [|exact Hb]. cbn. intros x [Hx Hy]. nia.
Qed.

Lemma StronglySorted_app (a b : list nat) :
  StronglySorted lt a -> StronglySorted lt b ->
  (forall x y, In x a -> In y b -> x < y) ->
  StronglySorted lt (a ++ b).
Proof.
  induction a as [|x a IH]; intros Ha Hb Hab; [exact Hb|].
  inversion Ha as [|? ? Ha' Hx]; subst. cbn. constructor.
  - apply IH; [assumption|assumption|]. intros u v Hu Hv.
    apply Hab; [now right|assumption].
  - apply Forall_app. split; [assumption|].
    apply Forall_forall. intros y Hy. apply Hab; [now left|assumption].
Qed.

Lemma scalars_train_events e ls :
  scalars (train_events training_loader N e ls) =
  combine (window_means N ls) (steps_from N (e * len) 0 (length ls / N)).
Proof.
  unfold train_events.
  now rewrite (@loop_events_scalars F N (e * len) N_pos ls [] 0).
Qed.

Lemma train_result_last e ls :
  train_result training_loader N e ls = last (window_means N ls) 0%Q.
Proof.
  unfold train_result. rewrite loop_events_last_loss.
  fold (train_events training_loader N e ls).
  rewrite scalars_train_events, map_fst_combine; [reflexivity|].
  now rewrite length_window_means, length_steps_from.
Qed.

(** The reports of one pass of the epoch loop. *)
Lemma epoch_outcome_reports (w : World F) r w' :
  epoch_outcome training_loader validation_loader timestamp N w r w' ->
  exists new ls,
    w_trace w' = w_trace w ++ new /\
    train_losses new = ls /\
    length ls <= len /\
    (r = Ok tt -> length ls = len) /\
    scalars new =
      combine (window_means N ls)
              (steps_from N (epoch_number w * len) 0 (length ls / N)).
Proof.
  intros H; inversion H; subst; eexists; exists ls;
    (split; [eassumption|]); trace_simpl;
    try (destruct (Qltb _ _); trace_simpl);
    rewrite scalars_train_events; repeat split; try easy; lia.
Qed.

Lemma epoch_steps_bounds (w : World F) r w' :
  epoch_outcome training_loader validation_loader timestamp N w r w' ->
  exists new,
    w_trace w' = w_trace w ++ new /\
    StronglySorted lt (map snd (scalars new)) /\
    Forall (fun x => epoch_number w * len < x /\
                     x <= (epoch_number w + 1) * len)
           (map snd (scalars new)).
Proof.
  intros H. destruct (epoch_outcome_reports H)
    as (new & ls & Ht & _ & Hl & _ & Hs).
  exists new. split; [assumption|]. rewrite Hs, map_snd_combine
    by now rewrite length_window_means, length_steps_from.
  destruct (steps_from_sorted (epoch_number w * len) (length ls / N) 0)
    as [H1 H2].
  split; [assumption|]. eapply Forall_impl; [|exact H2].
  cbn. intros x [Hx Hy]. split; [lia|].
  pose proof (Nat.Div0.mul_div_le (length ls) N). nia.
Qed.

Lemma epochs_steps_sorted EPOCHS (w : World F) r w' :
  epochs_outcome training_loader validation_loader timestamp N EPOCHS w r w' ->
  exists new,
    w_trace w' = w_trace w ++ new /\
    StronglySorted lt (map snd (scalars new)) /\
    Forall (fun x => epoch_number w * len < x) (map snd (scalars new)).
Proof.
  induction 1 as [w|n w w1 r w' H1 _ IH|n w x w' H1].
  - exists []. split; [now rewrite app_nil_r|]. split; constructor.
  - destruct (epoch_steps_bounds H1) as (new1 & Ht1 & Hs1 & Hb1).
    destruct IH as (new2 & Ht2 & Hs2 & Hb2).
    assert (He : epoch_number w1 = epoch_number w + 1)
      by (inversion H1; assumption).
    rewrite He in Hb2.
    exists (new1 ++ new2). split; [now rewrite Ht2, Ht1, app_assoc|].
    rewrite scalars_app, map_app. split.
    + apply StronglySorted_app; try assumption.
      intros u v Hu Hv.
      rewrite Forall_forall in Hb1, Hb2.
      specialize (Hb1 u Hu). specialize (Hb2 v Hv). lia.
    + apply Forall_app. split.
      * eapply Forall_impl; [|exact Hb1]. cbn. intros u [Hu _]. exact Hu.
      * eapply Forall_impl; [|exact Hb2]. cbn. intros u Hu. nia.
  - destruct (epoch_steps_bounds H1) as (new1 & Ht1 & Hs1 & Hb1).
    exists new1. split; [assumption|]. split; [assumption|].
    eapply Forall_impl; [|exact Hb1]. cbn. intros u [Hu _]. exact Hu.
Qed.

End Reports.

Section TrainOneEpoch.

Variable F : Framework.
Variable training_loader : list (Batch F).
Variable N : nat.
Hypothesis N_pos : 0 < N.

Lemma train_one_epoch_shape e (w : World F) :
  exists ls,
    match train_one_epoch training_loader N e w with
    | (Ok a, w') =>
        length ls = length training_loader /\
        a = train_result training_loader N e ls /\
        w_trace w' = w_trace w ++ train_events training_loader N e ls
    | (Raise x, w') =>
        exists err, x = FrameworkError err /\
                    length ls < length training_loader /\
                    w_trace w' = w_trace w
                                   ++ train_events training_loader N e ls
                                   ++ [EvRaised err]
    end.
Proof.
  unfold train_one_epoch, bind.
  destruct (train_loop_shape training_loader e N_pos training_loader
              (mkLocals 0 0 0) w) as (ls & H).
  exists ls.
  destruct (train_loop training_loader N e training_loader (mkLocals 0 0 0) w)
    as [[st|x] w'].
  - destruct H as (Hl & _ & Ht & Hs). unfold ret. now subst st.
  - destruct H as (err & Hx & _ & Hl & _ & Ht). now exists err.
Qed.

(** The events [train_one_epoch] appends: those of the training loop on
    the losses of the batches processed, then the exception if any. *)
Lemma train_one_epoch_new e (w : World F) :
  exists ls tail,
    new_events w (snd (train_one_epoch training_loader N e w))
    = train_events training_loader N e ls ++ tail /\
    length ls <= length training_loader /\
    (forall a, fst (train_one_epoch training_loader N e w) = Ok a ->
               length ls = length training_loader /\
               a = train_result training_loader N e ls) /\
    (tail = [] \/ exists err, tail = [EvRaised err]).
Proof.
  destruct (train_one_epoch_shape e w) as (ls & H).
  destruct (train_one_epoch training_loader N e w) as [[a|x] w'];
    cbn [fst snd].
  - destruct H as (Hl & Ha & Ht). exists ls, [].
    rewrite app_nil_r. split; [now apply new_events_app|].
    split; [lia|]. split; [|now left].
    intros a0 [= <-]. now split.
  - destruct H as (err & Hx & Hl & Ht). exists ls, [EvRaised err].
    split; [now apply new_events_app|].
    split; [lia|]. split; [discriminate|].
    right. now exists err.
Qed.

Lemma batches_before_reports_loop base ls : forall st k p c,
  p < N -> l_i st = k * N + p ->
  batches_before_reports c (fst (loop_events F N base st ls)) =
  map (fun j => c + (j + 1) * N - p) (seq 0 ((p + length ls) / N)).
Proof.
  induction ls as [|l rest IH]; intros st k p c Hp Hi.
  - cbn [length loop_events fst batches_before_reports].
    now rewrite Nat.add_0_r, Nat.div_small.
  - cbn [loop_events].
    assert (Hmod : l_i st mod N = p).
    { rewrite Hi, Nat.add_comm, Nat.Div0.mod_add. now apply Nat.mod_small. }
    rewrite Hmod.
    destruct (p =? N - 1) eqn:Ec.
    + apply Nat.eqb_eq in Ec.
      specialize (IH (mkLocals (S (l_i st)) 0
                        (Qdiv_nat (running_loss st + l) N)) (S k) 0 (S c)).
      cbn [l_i] in IH.
      destruct (loop_events F N base _ rest) as [evs st'].
      cbn [fst batches_before_reports] in *.
      rewrite IH by lia.
      replace (p + length (l :: rest)) with (1 * N + length rest)
        by (cbn [length]; lia).
      rewrite Nat.div_add_l by lia. cbn [Nat.add seq map]. f_equal; [nia|].
      rewrite <- seq_shift, map_map. apply map_ext. intros j. nia.
    + apply Nat.eqb_neq in Ec.
      specialize (IH (mkLocals (S (l_i st)) (running_loss st + l)
                        (last_loss st)) k (S p) (S c)).
      cbn [l_i] in IH.
      destruct (loop_events F N base _ rest) as [evs st'].
      cbn [fst batches_before_reports] in *.
      rewrite IH by lia.
      replace (p + length (l :: rest)) with (S p + length rest)
        by (cbn [length]; lia).
      apply map_ext. intros j. nia.
Qed.

Lemma batches_before_reports_raised c (evs : list (Event F)) err :
  batches_before_reports c (evs ++ [EvRaised err])
  = batches_before_reports c evs.
Proof.
  revert c. induction evs as [|ev rest IH]; intros c; [reflexivity|].
  destruct ev; cbn; now rewrite IH.
Qed.

End TrainOneEpoch.

(** C6: an iteration of the training loop that emits a training-progress
    report leaves [running_loss] at 0, and each mean [train_one_epoch]
    reports is the sum of one window of [N] consecutive batch losses over
    [N]: the [j]-th report covers batches [j * N + 1] to [(j + 1) * N] and
    no others. *)
Theorem running_loss_reset_after_report {F} (training_loader : list (Batch F))
  N epoch_index :
  0 < N ->
  (forall data st (w : World F) st',
      fst (train_iter training_loader N epoch_index data st w) = Ok st' ->
      scalars (new_events w (snd (train_iter training_loader N epoch_index
                                             data st w))) <> [] ->
      running_loss st' = 0%Q) /\
  (forall w : World F,
      let new := new_events w (snd (train_one_epoch training_loader N
                                                    epoch_index w)) in
      map fst (scalars new) = window_means N (train_losses new)).
Proof.
  intros HN. split.
  - intros data st w st' Hok Hrep.
    pose proof (train_iter_cases training_loader epoch_index HN data st w)
      as H.
    destruct (train_iter training_loader N epoch_index data st w)
      as [[st1|x] w']; cbn [fst snd] in *; [|discriminate].
    injection Hok as ->. destruct H as (l & _ & Ht & ->).
    apply new_events_app in Ht. rewrite Ht in Hrep. revert Hrep.
    cbn [loop_events].
    destruct (l_i st mod N =? N - 1); cbn [fst snd]; [reflexivity|].
    now trace_simpl.
  - intros w. cbv zeta.
    destruct (train_one_epoch_new training_loader HN epoch_index w)
      as (ls & tail & -> & _ & _ & Htail).
    assert (scalars tail = [] /\ train_losses tail = []) as [Hs Hl]
      by (destruct Htail as [->|[err ->]]; now split).
    trace_simpl. rewrite Hs, Hl, !app_nil_r.
    rewrite scalars_train_events by exact HN.
    apply map_fst_combine.
    now rewrite length_window_means, length_steps_from.
Qed.

Lemma running_loss_reset_after_report_witness :
  0 < 2 /\
  map fst (scalars (new_events toy_world
                      (snd (train_one_epoch toy_train4 2 0 toy_world))))
  = [Qdiv_nat (0 + 2 + 4) 2; Qdiv_nat (0 + 6 + 8) 2].
Proof.
  split; [lia|].
  destruct (@running_loss_reset_after_report toy toy_train4 2 0) as [_ H];
    [lia|].
  rewrite (H toy_world). reflexivity.
Defined.

(** C7: in every epoch the [j]-th training-progress data point (from 0)
    carries the mean of the [j]-th window of [N] batch losses and the step
    index [epoch_index * len(training_loader) + (j + 1) * N]; it is
    emitted when exactly [(j + 1) * N] batches of the epoch have been
    processed, so there is one per [N] batches.  In an epoch that
    completes, all of them ([len(training_loader) / N]) come before the
    single end-of-epoch data point.  Over a whole run the step indices are
    strictly increasing. *)
Theorem training_reports_every_N {F}
  (training_loader validation_loader : list (Batch F)) timestamp N :
  0 < N ->
  (forall epoch_index (w : World F),
      let new := new_events w (snd (train_one_epoch training_loader N
                                                    epoch_index w)) in
      let ls := train_losses new in
      scalars new =
        combine (window_means N ls)
                (steps_from N (epoch_index * length training_loader) 0
                            (length ls / N)) /\
      batches_before_reports 0 new =
        map (fun j => (j + 1) * N) (seq 0 (length ls / N))) /\
  (forall w : World F,
      fst (epoch_body training_loader validation_loader timestamp N w)
      = Ok tt ->
      let new := new_events w (snd (epoch_body training_loader
                                      validation_loader timestamp N w)) in
      exists pre a v post,
        new = pre ++ EvAddScalars a v (epoch_number w + 1) :: post /\
        length (scalars pre) = length training_loader / N /\
        scalars post = [] /\
        epoch_reports pre = [] /\ epoch_reports post = []) /\
  (forall EPOCHS (w : World F),
      StronglySorted lt
        (map snd (scalars (new_events w
                             (snd (run training_loader validation_loader
                                       timestamp N EPOCHS w)))))).
Proof.
  intros HN. split; [|split].
  - intros e w. cbv zeta.
    destruct (train_one_epoch_new training_loader HN e w)
      as (ls & tail & -> & _ & _ & Htail).
    assert (scalars tail = [] /\ train_losses tail = []) as [Hs Hl]
      by (destruct Htail as [->|[err ->]]; now split).
    trace_simpl. rewrite Hs, Hl, !app_nil_r.
    split; [now apply scalars_train_events|].
    assert (Hb : batches_before_reports 0
                   (train_events training_loader N e ls ++ tail)
                 = batches_before_reports 0
                     (train_events training_loader N e ls)).
    { destruct Htail as [->|[err ->]]; [now rewrite app_nil_r|].
      apply batches_before_reports_raised. }
    rewrite Hb. unfold train_events.
    rewrite (@batches_before_reports_loop F N HN
               (e * length training_loader) ls (mkLocals 0 0 0) 0 0 0)
      by (cbn; lia).
    cbn [Nat.add]. apply map_ext. intros j. lia.
  - intros w Hok. cbv zeta.
    pose proof (epoch_body_outcome training_loader validation_loader timestamp
                  HN w) as H.
    rewrite Hok in H.
    inversion H as [| |
                   |ls vls i w1 Hl Hev Hi avg_loss avg_vloss Ht He Hb Hgi Hr Hw].
    apply new_events_app in Ht. rewrite Ht.
    exists (EvPrintEpoch (epoch_number w + 1)
              :: train_events training_loader N (epoch_number w) ls
              ++ map EvValBatch vls ++ [EvPrintLoss avg_loss avg_vloss]),
      avg_loss, avg_vloss,
      (EvFlush :: (if Qltb avg_vloss (best_vloss w)
                   then [EvSave timestamp (epoch_number w)
                                (w_params
                                   (snd (epoch_body training_loader
                                           validation_loader timestamp N w)))]
                   else [])).
    split; [cbn [app]; now rewrite <- !app_assoc|].
    trace_simpl. rewrite scalars_train_events by exact HN.
    rewrite length_combine, length_window_means, length_steps_from, Hl,
      Nat.min_id.
    repeat split; now destruct (Qltb avg_vloss (best_vloss w)).
  - intros EPOCHS w.
    pose proof (run_outcome training_loader validation_loader timestamp HN
                  EPOCHS w) as H.
    apply epochs_steps_sorted in H; try assumption.
    destruct H as (new & Ht & Hs & _). cbn [w_trace] in Ht.
    apply new_events_app in Ht. now rewrite Ht.
Qed.

Lemma training_reports_every_N_witness :
  0 < 2 /\
  fst (epoch_body toy_train4 toy_val2 "ts" 2 toy_world) = Ok tt /\
  exists pre a v post,
    new_events toy_world (snd (epoch_body toy_train4 toy_val2 "ts" 2 toy_world))
    = pre ++ EvAddScalars a v 1 :: post /\
    length (scalars pre) = 2 /\
    epoch_reports pre = [] /\ epoch_reports post = [].
Proof.
  split; [lia|]. split; [reflexivity|].
  destruct (@training_reports_every_N toy toy_train4 toy_val2 "ts" 2)
    as (_ & H & _); [lia|].
  destruct (H toy_world eq_refl) as (pre & a & v & post & H1 & H2 & _ & H3 & H4).
  exists pre, a, v, post. repeat split; assumption.
Defined.

(** C1, as the code has it: the training value of the end-of-epoch data
    point is what [train_one_epoch] returns: the mean, with divisor [N], of
    the last complete window of [N] batch losses, or 0 when the epoch has
    fewer than [N] batches.  Losses accumulated after the last complete
    window enter no mean. *)
Theorem end_of_epoch_training_mean {F}
  (training_loader validation_loader : list (Batch F)) timestamp N :
  0 < N ->
  (forall epoch_index (w : World F) a,
      fst (train_one_epoch training_loader N epoch_index w) = Ok a ->
      let ls := train_losses
                  (new_events w (snd (train_one_epoch training_loader N
                                                      epoch_index w))) in
      length ls = length training_loader /\
      a = last (window_means N ls) 0%Q) /\
  (forall w : World F,
      fst (epoch_body training_loader validation_loader timestamp N w)
      = Ok tt ->
      let new := new_events w (snd (epoch_body training_loader
                                      validation_loader timestamp N w)) in
      let ls := train_losses new in
      length ls = length training_loader /\
      map (fun r => fst (fst r)) (epoch_reports new)
      = [last (window_means N ls) 0%Q]).
Proof.
  intros HN. split.
  - intros e w a Hok. cbv zeta.
    destruct (train_one_epoch_new training_loader HN e w)
      as (ls & tail & -> & _ & Ha & Htail).
    destruct (Ha a Hok) as [Hl ->].
    assert (train_losses tail = []) as Ht
      by (destruct Htail as [->|[err ->]]; reflexivity).
    trace_simpl. rewrite Ht, app_nil_r.
    split; [assumption|]. now apply train_result_last.
  - intros w Hok. cbv zeta.
    pose proof (epoch_body_outcome training_loader validation_loader timestamp
                  HN w) as H.
    rewrite Hok in H.
    inversion H as [| |
                   |ls vls i w1 Hl Hev Hi avg_loss avg_vloss Ht He Hb Hgi Hr Hw].
    apply new_events_app in Ht. rewrite Ht. subst avg_loss.
    trace_simpl.
    assert (Hs : train_losses
                   (if Qltb avg_vloss (best_vloss w)
                    then [EvSave timestamp (epoch_number w)
                            (w_params (snd (epoch_body training_loader
                                              validation_loader timestamp
                                              N w)))]
                    else []) = [] /\
                 epoch_reports
                   (if Qltb avg_vloss (best_vloss w)
                    then [EvSave timestamp (epoch_number w)
                            (w_params (snd (epoch_body training_loader
                                              validation_loader timestamp
                                              N w)))]
                    else []) = [])
      by (now destruct (Qltb avg_vloss (best_vloss w))).
    destruct Hs as [-> ->]. rewrite app_nil_r. split; [assumption|].
    cbn [map fst]. now rewrite train_result_last.
Qed.

Lemma end_of_epoch_training_mean_witness :
  0 < 2 /\
  fst (train_one_epoch toy_train3 2 0 toy_world)
  = Ok (Qdiv_nat (0 + 2 + 4) 2) /\
  Qdiv_nat (0 + 2 + 4) 2
  = last (window_means 2
            (train_losses
               (new_events toy_world
                  (snd (train_one_epoch toy_train3 2 0 toy_world))))) 0%Q.
Proof.
  split; [lia|]. split; [reflexivity|].
  destruct (@end_of_epoch_training_mean toy toy_train3 toy_val2 "ts" 2)
    as (H & _); [lia|].
  destruct (H 0 toy_world (Qdiv_nat (0 + 2 + 4) 2) eq_refl) as [_ Ha].
  exact Ha.
Defined.

(** C1 as stated fails.  With three training batches of losses 2, 4, 9
    and [N = 2], the only training-progress report and the end-of-epoch
    value are both the mean of batches 1 and 2 with divisor 2; the loss of
    batch 3 is in no report, and the end-of-epoch value is not batch 3
    over divisor 1.  The same with the interval of the notebook: after
    1000 batches of loss 1 and one of loss 9, the end-of-epoch value is
    the mean of the first 1000. *)
Lemma partial_window_never_reported :
  (let res := run toy_train3 toy_val2 "ts" 2 1 toy_world in
   let new := new_events toy_world (snd res) in
   fst res = Ok tt /\
   train_losses new = [2; 4; 9]%Q /\
   map fst (scalars new) = [Qdiv_nat (0 + 2 + 4) 2] /\
   map (fun r => fst (fst r)) (epoch_reports new) = [Qdiv_nat (0 + 2 + 4) 2] /\
   ~ (Qdiv_nat (0 + 2 + 4) 2 == Qdiv_nat 9 1)%Q) /\
  (let res := run (repeat (toy_batch 1) 1000 ++ [toy_batch 9]) toy_val2 "ts"
                  REPORT_EVERY 1 toy_world in
   let new := new_events toy_world (snd res) in
   fst res = Ok tt /\
   length (train_losses new) = 1001 /\
   map fst (scalars new) = [Qdiv_nat (Qsum (repeat 1%Q 1000)) 1000] /\
   map (fun r => fst (fst r)) (epoch_reports new)
   = [Qdiv_nat (Qsum (repeat 1%Q 1000)) 1000] /\
   ~ (Qdiv_nat (Qsum (repeat 1%Q 1000)) 1000 == Qdiv_nat 9 1)%Q).
Proof.
  split; cbv zeta.
  - repeat split; try reflexivity. vm_compute. discriminate.
  - repeat split; try (vm_compute; reflexivity). vm_compute. discriminate.
Qed.

(** * More on the epoch loop of the training notebook *)


Section EpochLoopFacts.

Variable F : Framework.
Variable training_loader validation_loader : list (Batch F).
Variable timestamp : string.
Variable N : nat.

Local Abbreviation epoch_outcome :=
  (epoch_outcome training_loader validation_loader timestamp N).
Local Abbreviation epochs_outcome :=
  (epochs_outcome training_loader validation_loader timestamp N).

(** What a completed pass appended and changed. *)
Lemma epoch_done_facts (w w' : World F) :
  epoch_outcome w (Ok tt) w' ->
  exists new a v,
    w_trace w' = w_trace w ++ new /\
    length (train_losses new) = length training_loader /\
    length (val_losses new) = length validation_loader /\
    epoch_reports new = [(a, v, epoch_number w + 1)] /\
    epoch_number w' = epoch_number w + 1 /\
    ((Qltb v (best_vloss w) = true /\ best_vloss w' = v /\
      saves new = [(epoch_number w, w_params w')]) \/
     (Qltb v (best_vloss w) = false /\ best_vloss w' = best_vloss w /\
      saves new = [])).
Proof.
  intros H.
  inversion H as [| |
                 |ls vls i w1 Hl Hev Hi avg_loss avg_vloss Ht He Hb Hgi Hr Hw].
  pose proof (eval_losses_length false (w_params w') validation_loader) as Hv.
  rewrite Hev in Hv. cbn [fst snd] in Hv.
  eexists. exists avg_loss, avg_vloss. split; [exact Ht|].
  subst avg_loss avg_vloss.
  destruct (Qltb (Qdiv_nat (Qsum vls) (i + 1)) (best_vloss w)) eqn:Eb;
    trace_simpl; repeat split; auto.
Qed.

(** What an aborted pass appended and changed. *)
Lemma epoch_abort_facts (w w' : World F) x :
  epoch_outcome w (Raise x) w' ->
  exists new,
    w_trace w' = w_trace w ++ new /\
    epoch_reports new = [] /\ saves new = [] /\
    epoch_number w' = epoch_number w /\ best_vloss w' = best_vloss w.
Proof.
  intros H; inversion H; subst; eexists; (split; [eassumption|]);
    trace_simpl; now repeat split.
Qed.

Lemma epochs_outcome_reports_seq EPOCHS (w : World F) r w' :
  epochs_outcome EPOCHS w r w' ->
  exists new,
    w_trace w' = w_trace w ++ new /\
    epoch_number w <= epoch_number w' /\
    map snd (epoch_reports new)
    = seq (epoch_number w + 1) (epoch_number w' - epoch_number w) /\
    (r = Ok tt ->
     length (train_losses new) = EPOCHS * length training_loader /\
     length (val_losses new) = EPOCHS * length validation_loader).
Proof.
  induction 1 as [w|n w w1 r w' H1 _ IH|n w x w' H1].
  - exists []. rewrite app_nil_r, Nat.sub_diag.
    split; [reflexivity|]. split; [lia|]. split; [reflexivity|].
    intros _. now split.
  - destruct (epoch_done_facts H1)
      as (new1 & a & v & Ht1 & Hl1 & Hv1 & Hr1 & He1 & _).
    destruct IH as (new2 & Ht2 & Hle & Hr2 & Hok).
    exists (new1 ++ new2). split; [now rewrite Ht2, Ht1, app_assoc|].
    split; [lia|]. split.
    + rewrite epoch_reports_app, map_app, Hr1, Hr2, He1. cbn [map snd app].
      replace (epoch_number w' - epoch_number w)
        with (S (epoch_number w' - (epoch_number w + 1))) by lia.
      cbn [seq]. f_equal. f_equal. lia.
    + intros Hr. destruct (Hok Hr) as [Ha Hb].
      rewrite train_losses_app, val_losses_app, !length_app, Ha, Hb, Hl1, Hv1.
      cbn. lia.
  - destruct (epoch_abort_facts H1) as (new & Ht & Hr & _ & He & _).
    exists new. split; [assumption|]. rewrite Hr, He, Nat.sub_diag.
    split; [lia|]. split; [reflexivity|]. discriminate.
Qed.


(** The epoch numbers in the names of the snapshots strictly increase and
    lie between the counter before and after. *)
Lemma epochs_outcome_save_tags EPOCHS (w : World F) r w' :
  epochs_outcome EPOCHS w r w' ->
  exists new,
    w_trace w' = w_trace w ++ new /\
    epoch_number w <= epoch_number w' /\
    StronglySorted lt (map fst (saves new)) /\
    Forall (fun k => epoch_number w <= k < epoch_number w')
           (map fst (saves new)).
Proof.
  induction 1 as [w|n w w1 r w' H1 _ IH|n w x w' H1].
  - exists []. rewrite app_nil_r. repeat split; try constructor.
  - destruct (epoch_done_facts H1)
      as (new1 & a & v & Ht1 & _ & _ & _ & He1 & Hcase).
    destruct IH as (new2 & Ht2 & Hle & Hs2 & Hb2).
    exists (new1 ++ new2). split; [now rewrite Ht2, Ht1, app_assoc|].
    split; [lia|].
    assert (Hb2' : Forall (fun k => epoch_number w < k < epoch_number w')
                          (map fst (saves new2))).
    { eapply Forall_impl; [|exact Hb2]. cbn. intros k Hk. lia. }
    rewrite saves_app, map_app.
    destruct Hcase as [(_ & _ & ->)|(_ & _ & ->)]; cbn [map fst app].
    + split.
      * constructor; [assumption|].
        eapply Forall_impl; [|exact Hb2']. cbn. intros k Hk. lia.
      * constructor; [lia|].
        eapply Forall_impl; [|exact Hb2']. cbn. intros k Hk. lia.
    + split; [assumption|].
      eapply Forall_impl; [|exact Hb2']. cbn. intros k Hk. lia.
  - destruct (epoch_abort_facts H1) as (new & Ht & _ & Hs & He & _).
    exists new. split; [assumption|]. rewrite Hs, He.
    repeat split; try constructor.
Qed.

End EpochLoopFacts.

Lemma new_events_trans {F} (w w1 w2 : World F) a b :
  w_trace w1 = w_trace w ++ a -> w_trace w2 = w_trace w1 ++ b ->
  new_events w w2 = a ++ b.
Proof.
  intros H1 H2. apply new_events_app. now rewrite H2, H1, app_assoc.
Qed.

Lemma epochs_outcome_steps_upper {F}
  (training_loader validation_loader : list (Batch F)) timestamp N EPOCHS
  (w : World F) r w' :
  0 < N ->
  epochs_outcome training_loader validation_loader timestamp N EPOCHS w r w' ->
  exists new,
    w_trace w' = w_trace w ++ new /\
    epoch_number w <= epoch_number w' /\
    (r = Ok tt ->
     Forall (fun x => x <= epoch_number w' * length training_loader)
            (map snd (scalars new))).
Proof.
  intros HN.
  induction 1 as [w|n w w1 r w' H1 _ IH|n w x w' H1].
  - exists []. rewrite app_nil_r. repeat split; try lia. constructor.
  - destruct (epoch_steps_bounds HN H1) as (new1 & Ht1 & _ & Hb1).
    assert (He : epoch_number w1 = epoch_number w + 1)
      by (inversion H1; assumption).
    destruct IH as (new2 & Ht2 & Hle & Hup).
    exists (new1 ++ new2). split; [now rewrite Ht2, Ht1, app_assoc|].
    split; [lia|]. intros Hr.
    rewrite scalars_app, map_app. apply Forall_app. split.
    + eapply Forall_impl; [|exact Hb1]. cbn. intros u [_ Hu]. nia.
    + now apply Hup.
  - destruct (epoch_abort_facts H1) as (new & Ht & _ & _ & He & _).
    exists new. split; [assumption|]. split; [lia|]. discriminate.
Qed.





(** X3: the epoch numbers under which a run saves snapshots strictly
    increase and lie from the counter before the run up to, not
    including, the counter after it: no snapshot written by a run is
    overwritten by that run. *)
Theorem snapshot_names_increase {F}
  (training_loader validation_loader : list (Batch F)) timestamp N EPOCHS
  (w : World F) :
  0 < N ->
  let w' := snd (run training_loader validation_loader timestamp N EPOCHS w) in
  let tags := map fst (saves (new_events w w')) in
  StronglySorted lt tags /\
  Forall (fun k => epoch_number w <= k < epoch_number w') tags.
Proof.
  intros HN w' tags. subst w' tags.
  pose proof (run_outcome training_loader validation_loader timestamp HN
                EPOCHS w) as H.
  apply epochs_outcome_save_tags in H.
  destruct H as (new & Ht & _ & Hs & Hb).
  cbn [w_trace epoch_number] in Ht, Hb.
  apply new_events_app in Ht. rewrite Ht. now split.
Qed.

Lemma snapshot_names_increase_witness :
  0 < 2 /\
  StronglySorted lt
    (map fst (saves (new_events toy_world
                       (snd (run toy_train3 toy_val2 "ts" 2 3 toy_world))))).
Proof.
  split; [lia|].
  destruct (@snapshot_names_increase toy toy_train3 toy_val2 "ts" 2 3
              toy_world) as [H _]; [lia|].
  exact H.
Defined.

(** X4: running the cell again continues the first run: when a run has
    completed, the training-progress step indices of it and of a second
    run started in the state it left are strictly increasing as a whole,
    so are the epoch numbers of the snapshots, the end-of-epoch data
    points are numbered on without a gap, and when the second run
    completes too the counter has advanced by both numbers of epochs. *)
Theorem consecutive_runs_continue {F}
  (training_loader validation_loader : list (Batch F)) timestamp N E1 E2
  (w : World F) :
  0 < N ->
  let first := run training_loader validation_loader timestamp N E1 w in
  let second :=
    run training_loader validation_loader timestamp N E2 (snd first) in
  let new := new_events w (snd second) in
  fst first = Ok tt ->
  StronglySorted lt (map snd (scalars new)) /\
  StronglySorted lt (map fst (saves new)) /\
  map snd (epoch_reports new)
  = seq (epoch_number w + 1) (epoch_number (snd second) - epoch_number w) /\
  (fst second = Ok tt ->
   epoch_number (snd second) = epoch_number w + E1 + E2).
Proof.
  intros HN first second new Hok. subst new.
  pose proof (run_outcome training_loader validation_loader timestamp HN
                E1 w) as H1.
  pose proof (run_outcome training_loader validation_loader timestamp HN
                E2 (snd first)) as H2.
  fold first in H1. fold second in H2. rewrite Hok in H1.
  set (w1 := snd first) in *. set (w2 := snd second) in *.
  (* the first run *)
  pose proof H1 as Hc1. apply epochs_outcome_counter in Hc1; try assumption.
  pose proof H1 as Hu1. apply epochs_outcome_steps_upper in Hu1; [|assumption].
  pose proof H1 as Hs1. apply epochs_steps_sorted in Hs1; [|assumption].
  pose proof H1 as Hr1. apply epochs_outcome_reports_seq in Hr1.
  pose proof H1 as Hg1. apply epochs_outcome_save_tags in Hg1.
  destruct Hu1 as (new1 & Ht1 & _ & Hup1).
  destruct Hs1 as (n1 & Ht & Hsort1 & _).
  rewrite Ht1 in Ht. apply app_inv_head in Ht. subst n1.
  destruct Hr1 as (n1 & Ht & _ & Hseq1 & _).
  rewrite Ht1 in Ht. apply app_inv_head in Ht. subst n1.
  destruct Hg1 as (n1 & Ht & _ & Htag1 & Hb1).
  rewrite Ht1 in Ht. apply app_inv_head in Ht. subst n1.
  specialize (Hup1 eq_refl).
  cbn [w_trace epoch_number] in Ht1, Hc1, Hup1, Hseq1, Hb1.
  (* the second run *)
  pose proof H2 as Hc2. apply epochs_outcome_counter in Hc2; try assumption.
  pose proof H2 as Hs2. apply epochs_steps_sorted in Hs2; [|assumption].
  pose proof H2 as Hr2. apply epochs_outcome_reports_seq in Hr2.
  pose proof H2 as Hg2. apply epochs_outcome_save_tags in Hg2.
  destruct Hs2 as (new2 & Ht2 & Hsort2 & Hlow2).
  destruct Hr2 as (n2 & Ht & Hle2 & Hseq2 & _).
  rewrite Ht2 in Ht. apply app_inv_head in Ht. subst n2.
  destruct Hg2 as (n2 & Ht & _ & Htag2 & Hb2).
  rewrite Ht2 in Ht. apply app_inv_head in Ht. subst n2.
  cbn [w_trace epoch_number] in Ht2, Hc2, Hlow2, Hle2, Hseq2, Hb2.
  rewrite (@new_events_trans F w w1 w2 new1 new2 Ht1 Ht2).
  rewrite scalars_app, saves_app, epoch_reports_app, !map_app.
  rewrite Forall_forall in Hup1, Hlow2, Hb1, Hb2.
  split; [|split; [|split]].
  - apply StronglySorted_app; try assumption.
    intros x y Hx Hy. specialize (Hup1 x Hx). specialize (Hlow2 y Hy). lia.
  - apply StronglySorted_app; try assumption.
    intros x y Hx Hy. specialize (Hb1 x Hx). specialize (Hb2 y Hy). lia.
  - rewrite Hseq1, Hseq2, Hc1.
    replace (epoch_number w + E1 - epoch_number w) with E1 by lia.
    replace (epoch_number w2 - epoch_number w)
      with (E1 + (epoch_number w2 - (epoch_number w + E1))) by lia.
    rewrite seq_app. do 2 f_equal. lia.
  - intros Hr2. rewrite Hr2 in Hc2. lia.
Qed.

Lemma consecutive_runs_continue_witness :
  0 < 2 /\
  fst (run toy_train4 toy_val2 "ts" 2 2 toy_world) = Ok tt /\
  map snd
    (scalars
       (new_events toy_world
          (snd (run toy_train4 toy_val2 "ts" 2 1
                  (snd (run toy_train4 toy_val2 "ts" 2 2 toy_world))))))
  = [2; 4; 6; 8; 10; 12].
Proof.
  split; [lia|]. split; [reflexivity|].
  destruct (@consecutive_runs_continue toy toy_train4 toy_val2 "ts" 2 2 1
              toy_world) as [H _]; [lia|reflexivity|].
  revert H. vm_compute. reflexivity.
Defined.

(** X5: [train_one_epoch] touches the model and the writer only: however
    it ends, the train/eval flag, [epoch_number], [best_vloss] and the
    module-level [i] are as before, and it evaluates no validation batch,
    emits no end-of-epoch data point and saves no snapshot. *)
Theorem train_one_epoch_frame {F} (training_loader : list (Batch F))
  N epoch_index (w : World F) :
  0 < N ->
  let w' := snd (train_one_epoch training_loader N epoch_index w) in
  let new := new_events w w' in
  same_globals w w' /\
  val_losses new = [] /\ epoch_reports new = [] /\ saves new = [] /\
  length (train_losses new) <= length training_loader.
Proof.
  intros HN w' new. subst w' new.
  unfold train_one_epoch, bind.
  destruct (train_loop_shape training_loader epoch_index HN training_loader
              (mkLocals 0 0 0) w) as (ls & H).
  destruct (train_loop training_loader N epoch_index training_loader
              (mkLocals 0 0 0) w) as [[st|x] w'].
  - destruct H as (Hl & Hg & Ht & _). cbn [snd ret].
    apply new_events_app in Ht. rewrite Ht.
    fold (train_events training_loader N epoch_index ls).
    trace_simpl. repeat split; try apply Hg; lia.
  - destruct H as (err & _ & _ & Hl & Hg & Ht). cbn [snd].
    apply new_events_app in Ht. rewrite Ht.
    fold (train_events training_loader N epoch_index ls).
    trace_simpl. repeat split; try apply Hg; lia.
Qed.

Lemma train_one_epoch_frame_witness :
  0 < 2 /\
  same_globals toy_world_tracking
    (snd (train_one_epoch (toy_train3 ++ [toy_bad_batch]) 2 0
            toy_world_tracking)).
Proof.
  split; [lia|].
  apply (@train_one_epoch_frame toy (toy_train3 ++ [toy_bad_batch]) 2 0
           toy_world_tracking). lia.
Defined.

(** X6: a training loader with fewer than [N] batches gets no
    training-progress report at all: [train_one_epoch] emits none and
    returns its initial 0, and the end-of-epoch data point of an epoch
    that completes carries 0 as training loss, whatever the batches'
    losses were. *)
Theorem short_epoch_reports_zero {F}
  (training_loader validation_loader : list (Batch F)) timestamp N :
  0 < N ->
  length training_loader < N ->
  (forall epoch_index (w : World F),
      let res := train_one_epoch training_loader N epoch_index w in
      scalars (new_events w (snd res)) = [] /\
      forall a, fst res = Ok a -> a = 0%Q) /\
  (forall w : World F,
      let res := epoch_body training_loader validation_loader timestamp N w in
      let new := new_events w (snd res) in
      scalars new = [] /\
      (fst res = Ok tt -> map (fun r => fst (fst r)) (epoch_reports new)
                          = [0%Q])).
Proof.
  intros HN Hshort. split.
  - intros e w. cbv zeta.
    destruct (train_one_epoch_new training_loader HN e w)
      as (ls & tail & -> & Hl & Ha & Htail).
    assert (scalars tail = []) as Hs
      by (destruct Htail as [->|[err ->]]; reflexivity).
    split.
    + rewrite scalars_app, Hs, app_nil_r, scalars_train_events by exact HN.
      now rewrite window_means_short by lia.
    + intros a Hok. destruct (Ha a Hok) as [_ ->].
      rewrite train_result_last by exact HN.
      now rewrite window_means_short by lia.
  - intros w. cbv zeta.
    pose proof (epoch_body_outcome training_loader validation_loader timestamp
                  HN w) as H.
    destruct (epoch_outcome_reports HN H) as (new & ls & Ht & Hls & Hl & _ & Hs).
    apply new_events_app in Ht. rewrite Ht. split.
    + rewrite Hs. now rewrite window_means_short by lia.
    + intros Hok. rewrite Hok in H.
      inversion H as [| |
                     |ls' vls i w1 Hl' Hev Hi avg_loss avg_vloss Ht' He Hb
                        Hgi Hr Hw].
      apply new_events_app in Ht'. rewrite Ht in Ht'. rewrite Ht'.
      subst avg_loss. trace_simpl.
      assert (He0 : epoch_reports
                      (if Qltb avg_vloss (best_vloss w)
                       then [EvSave timestamp (epoch_number w)
                               (w_params (snd (epoch_body training_loader
                                                 validation_loader timestamp
                                                 N w)))]
                       else []) = [])
        by (now destruct (Qltb avg_vloss (best_vloss w))).
      rewrite He0. cbn [map fst app].
      rewrite train_result_last by exact HN.
      now rewrite window_means_short by lia.
Qed.

Lemma short_epoch_reports_zero_witness :
  0 < REPORT_EVERY /\ length toy_train3 < REPORT_EVERY /\
  map (fun r => fst (fst r))
      (epoch_reports
         (new_events toy_world
            (snd (epoch_body toy_train3 toy_val2 "ts" REPORT_EVERY toy_world))))
  = [0%Q].
Proof.
  assert (H1 : 0 < REPORT_EVERY) by (unfold REPORT_EVERY; lia).
  assert (H2 : length toy_train3 < REPORT_EVERY)
    by (unfold REPORT_EVERY; cbn; lia).
  split; [exact H1|]. split; [exact H2|].
  destruct (@short_epoch_reports_zero toy toy_train3 toy_val2 "ts"
              REPORT_EVERY H1 H2) as [_ H].
  apply (H toy_world). reflexivity.
Defined.

(** X7: when the validation loader is empty but a module-level [i] is
    still bound from an earlier loop, [avg_vloss] is no error: it is
    [0 / (i + 1)], that is 0, and a one-epoch run that completes saves a
    snapshot on the strength of it. *)
Theorem stale_i_hides_empty_validation {F} (training_loader : list (Batch F))
  timestamp N (w : World F) i :
  0 < N ->
  g_i w = Some i ->
  fst (validation_pass [] w) = Ok (Qdiv_nat 0 (i + 1)) /\
  (Qdiv_nat 0 (i + 1) == 0)%Q /\
  (let res := run training_loader [] timestamp N 1 w in
   let new := new_events w (snd res) in
   fst res = Ok tt ->
   best_vloss (snd res) = Qdiv_nat 0 (i + 1) /\
   saves new = [(epoch_number w, w_params (snd res))]).
Proof.
  intros HN Hgi. split; [|split].
  - rewrite validation_pass_eq. cbn. now rewrite Hgi.
  - unfold Qdiv_nat. unfold Qdiv. apply Qmult_0_l.
  - cbv zeta. intros Hok.
    pose proof (run_outcome training_loader [] timestamp HN 1 w) as H.
    rewrite Hok in H.
    inversion H as [|n w0 w1 r0 w2 H1 H2|]; subst.
    inversion H2; subst.
    inversion H1 as [| |
                    |ls vls j w1 Hl Hev Hi avg_loss avg_vloss Ht He Hb Hg
                       Hr0 Hw].
    cbn [w_trace epoch_number best_vloss g_i i_after] in Ht, Hb, Hi.
    cbn in Hev. injection Hev as <-.
    rewrite Hgi in Hi. injection Hi as <-.
    apply new_events_app in Ht. rewrite Ht.
    subst avg_loss avg_vloss.
    assert (Eb : Qltb (Qdiv_nat (Qsum []) (i + 1)) BEST_VLOSS_INIT = true).
    { apply Qltb_lt.
      assert (Hz : (Qdiv_nat (Qsum []) (i + 1) == 0)%Q)
        by (unfold Qdiv_nat, Qdiv; apply Qmult_0_l).
      rewrite Hz. reflexivity. }
    rewrite Eb in *. trace_simpl. now split.
Qed.

Lemma stale_i_hides_empty_validation_witness :
  0 < 2 /\
  g_i (snd (run toy_train3 toy_val2 "ts" 2 1 toy_world)) = Some 1 /\
  saves (new_events (snd (run toy_train3 toy_val2 "ts" 2 1 toy_world))
           (snd (run toy_train3 [] "ts" 2 1
                   (snd (run toy_train3 toy_val2 "ts" 2 1 toy_world)))))
  = [(1, 6)].
Proof.
  split; [lia|]. split; [reflexivity|].
  destruct (@stale_i_hides_empty_validation toy toy_train3 "ts" 2
              (snd (run toy_train3 toy_val2 "ts" 2 1 toy_world)) 1)
    as (_ & _ & H); [lia|reflexivity|].
  destruct (H eq_refl) as [_ Hs]. rewrite Hs. reflexivity.
Defined.

(** * The loop of the TensorBoard notebook *)

Section TensorBoardLoop.

Variable F : Framework.
Variable training_loader validation_loader : list (Batch F).
Variable N epoch : nat.
Hypothesis N_pos : 0 < N.

Local Abbreviation base := (epoch * length training_loader).
Local Abbreviation nv := (length validation_loader).

Lemma tb_loop_events_cons i running l rest vss :
  tb_loop_events F N base nv i running (l :: rest) vss =
  if i mod N =? N - 1 then
    match vss with
    | vs :: vss' =>
        (fst (tb_loop_events F N base nv i running [l] [vs])
           ++ fst (tb_loop_events F N base nv (S i) 0 rest vss'),
         snd (tb_loop_events F N base nv (S i) 0 rest vss'))
    | [] => ([], running)
    end
  else
    (fst (tb_loop_events F N base nv i running [l] [])
       ++ fst (tb_loop_events F N base nv (S i) (running + l) rest vss),
     snd (tb_loop_events F N base nv (S i) (running + l) rest vss)).
Proof.
  cbn [tb_loop_events].
  destruct (i mod N =? N - 1).
  - destruct vss as [|vs vss']; [reflexivity|].
    destruct (tb_loop_events F N base nv (S i) 0 rest vss') as [evs r].
    cbn [fst snd app]. now rewrite <- app_assoc.
  - destruct (tb_loop_events F N base nv (S i) (running + l) rest vss)
      as [evs r].
    reflexivity.
Qed.

Lemma tb_iter_cases data i running (w : World F) :
  match tb_iter training_loader validation_loader N epoch data i running w with
  | (Ok r, w') =>
      exists l vss,
        w_trace w' = w_trace w
                       ++ fst (tb_loop_events F N base nv i running [l] vss) /\
        r = snd (tb_loop_events F N base nv i running [l] vss) /\
        (if i mod N =? N - 1
         then (exists vs, vss = [vs] /\ length vs = nv) /\ nv <> 0
         else vss = [])
  | (Raise x, w') =>
      exists tail, w_trace w' = w_trace w ++ tail /\ tb_abort N nv x i tail
  end.
Proof.
  destruct (tb_iter training_loader validation_loader N epoch data i running w)
    as [r w'] eqn:E.
  revert E. unfold tb_iter.
  pose proof (train_batch_cases data w) as Hb.
  destruct (train_batch data w) as [[loss|x] w1] eqn:Eb.
  - rewrite (bind_Ok _ _ _ Eb). destruct Hb as [_ Ht1].
    destruct N as [|n] eqn:EN; [lia|].
    unfold log at 1. rewrite bind_modify.
    unfold py_mod. unfold bind at 1. unfold ret at 1.
    cbn [tb_loop_events].
    destruct (i mod S n =? S n - 1) eqn:Ec.
    + apply Nat.eqb_eq in Ec.
      unfold log at 1. rewrite bind_modify.
      unfold bind at 1. rewrite tb_validation_check_eq.
      cbn [w_params w_trace].
      pose proof (eval_losses_length false (w_params w1) validation_loader)
        as Hlen.
      pose proof (@eval_losses_raises F false (w_params w1) validation_loader)
        as Hfr.
      destruct (eval_losses false (w_params w1) validation_loader)
        as [vls [e|]]; cbn [fst snd] in Hlen, Hfr.
      * intros [= <- <-].
        exists ([EvTrainBatch (item F loss); EvPrintBatch (i + 1)]
                  ++ map EvValBatch vls ++ [EvRaised e]).
        split.
        { cbn [w_trace]. rewrite Ht1.
          repeat (rewrite <- app_assoc; cbn [app]). reflexivity. }
        split; [now trace_simpl|]. split; [now apply Hfr|].
        exists ([EvTrainBatch (item F loss); EvPrintBatch (i + 1)]
                  ++ map EvValBatch vls).
        split; [now rewrite <- app_assoc|]. now trace_simpl.
      * unfold py_div at 1. unfold bind at 1. unfold ret at 1.
        destruct validation_loader as [|vb vrest] eqn:Evl.
        -- cbn in Hlen. destruct vls; [|discriminate].
           cbn [length py_div]. unfold bind at 1. unfold raise.
           intros [= <- <-].
           exists [EvTrainBatch (item F loss); EvPrintBatch (i + 1)].
           split.
           { cbn [w_trace map]. rewrite Ht1, app_nil_r, <- app_assoc.
             reflexivity. }
           split; [reflexivity|]. split; [reflexivity|].
           split; [assumption|]. now exists (item F loss).
        -- cbn [length py_div]. unfold bind at 1. unfold ret at 1.
           unfold log at 1. rewrite bind_modify. unfold ret.
           intros [= <- <-]. exists (item F loss), [vls].
           cbn [tb_loop_events fst snd w_trace length].
           rewrite Ht1. repeat (rewrite <- app_assoc; cbn [app]).
           split; [reflexivity|]. split; [reflexivity|].
           split; [|discriminate]. exists vls. now split.
    + unfold ret. intros [= <- <-]. exists (item F loss), [].
      cbn [tb_loop_events fst snd w_trace]. rewrite Ht1. now repeat split.
  - rewrite (bind_Raise _ _ _ Eb). intros [= <- <-].
    destruct Hb as (e & -> & Hfr & _ & Ht).
    exists [EvRaised e]. split; [assumption|].
    split; [reflexivity|]. split; [assumption|]. now exists [].
Qed.

End TensorBoardLoop.

Section TensorBoardShape.

Variable F : Framework.
Variable training_loader validation_loader : list (Batch F).
Variable N epoch : nat.
Hypothesis N_pos : 0 < N.

Local Abbreviation base := (epoch * length training_loader).
Local Abbreviation nv := (length validation_loader).

Lemma tb_train_loop_shape batches : forall i running (w : World F),
  exists ls vss,
    Forall (fun vs : list Q => length vs = nv) vss /\
    (vss <> [] -> nv <> 0) /\
    length vss = report_count N i (length ls) /\
    match tb_train_loop training_loader validation_loader N epoch batches i
                        running w with
    | (Ok r, w') =>
        length ls = length batches /\
        w_trace w' = w_trace w
                       ++ fst (tb_loop_events F N base nv i running ls vss) /\
        r = snd (tb_loop_events F N base nv i running ls vss)
    | (Raise x, w') =>
        length ls < length batches /\
        exists tail,
          w_trace w' = w_trace w
                         ++ fst (tb_loop_events F N base nv i running ls vss)
                         ++ tail /\
          tb_abort N nv x (i + length ls) tail
    end.
Proof.
  induction batches as [|data rest IH]; intros i running w.
  - exists [], []. cbn. repeat split; try easy. now rewrite app_nil_r.
  - cbn [tb_train_loop].
    pose proof (tb_iter_cases training_loader validation_loader epoch N_pos
                  data i running w) as Hi.
    destruct (tb_iter training_loader validation_loader N epoch data i
                      running w) as [[r1|x] w1] eqn:Ei.
    + rewrite (bind_Ok _ _ _ Ei).
      destruct Hi as (l & vss1 & Ht1 & Hr1 & Hc).
      destruct (IH (S i) r1 w1) as (ls & vss & Hall & Hnv & Hcnt & Hrest).
      exists (l :: ls), (vss1 ++ vss).
      assert (Hall1 : Forall (fun vs : list Q => length vs = nv) vss1 /\
                      (vss1 <> [] -> nv <> 0) /\
                      length vss1 = (if i mod N =? N - 1 then 1 else 0)).
      { destruct (i mod N =? N - 1).
        - destruct Hc as [(vs & -> & Hvs) Hne].
          repeat split; auto.
        - subst vss1. repeat split; easy. }
      destruct Hall1 as (Hall1 & Hnv1 & Hcnt1).
      split; [now apply Forall_app|].
      split; [intros Hne; destruct vss1; [now apply Hnv|now apply Hnv1]|].
      split; [cbn [length report_count]; now rewrite length_app, Hcnt1, Hcnt|].
      assert (Hreplay :
                tb_loop_events F N base nv i running (l :: ls) (vss1 ++ vss)
                = (fst (tb_loop_events F N base nv i running [l] vss1)
                     ++ fst (tb_loop_events F N base nv (S i) r1 ls vss),
                   snd (tb_loop_events F N base nv (S i) r1 ls vss))).
      { rewrite tb_loop_events_cons. subst r1.
        cbn [tb_loop_events].
        destruct (i mod N =? N - 1).
        - destruct Hc as [(vs & -> & _) _]. reflexivity.
        - subst vss1. reflexivity. }
      rewrite Hreplay. cbn [fst snd].
      destruct (tb_train_loop training_loader validation_loader N epoch rest
                              (S i) r1 w1) as [[r2|x2] w2].
      * destruct Hrest as (Hl & Ht2 & Hr2).
        split; [cbn; lia|]. split; [|assumption].
        now rewrite Ht2, Ht1, <- app_assoc.
      * destruct Hrest as (Hl & tail & Ht2 & Hab).
        split; [cbn; lia|]. exists tail. split.
        -- now rewrite Ht2, Ht1, <- !app_assoc.
        -- cbn [length]. now rewrite Nat.add_succ_r.
    + rewrite (bind_Raise _ _ _ Ei).
      destruct Hi as (tail & Ht & Hab).
      exists [], []. split; [constructor|]. split; [easy|].
      split; [reflexivity|]. split; [cbn; lia|].
      exists tail. cbn [tb_loop_events fst app length].
      now rewrite Nat.add_0_r.
Qed.

Lemma report_count_div n : forall k p,
  p < N -> report_count N (k * N + p) n = (p + n) / N.
Proof.
  induction n as [|n IH]; intros k p Hp.
  - cbn. now rewrite Nat.add_0_r, Nat.div_small.
  - cbn [report_count].
    assert (Hmod : (k * N + p) mod N = p).
    { rewrite Nat.add_comm, Nat.Div0.mod_add. now apply Nat.mod_small. }
    rewrite Hmod.
    destruct (p =? N - 1) eqn:Ec.
    + apply Nat.eqb_eq in Ec.
      replace (S (k * N + p)) with (S k * N + 0) by lia.
      rewrite IH by lia.
      replace (p + S n) with (1 * N + (0 + n)) by lia.
      now rewrite Nat.div_add_l by lia.
    + apply Nat.eqb_neq in Ec.
      replace (S (k * N + p)) with (k * N + S p) by lia.
      rewrite IH by lia. cbn. f_equal. lia.
Qed.

Lemma tb_steps_from_S k n :
  tb_steps_from N base k (S n)
  = (base + (k + 1) * N - 1) :: tb_steps_from N base (S k) n.
Proof.
  unfold tb_steps_from. cbn [seq map]. f_equal.
  - f_equal. f_equal. f_equal. lia.
  - rewrite <- seq_shift, map_map. apply map_ext. intros j.
    f_equal. f_equal. f_equal. lia.
Qed.

Lemma tb_loop_events_projections ls : forall i running vss,
  length vss = report_count N i (length ls) ->
  train_losses (fst (tb_loop_events F N base nv i running ls vss)) = ls /\
  val_losses (fst (tb_loop_events F N base nv i running ls vss))
  = concat vss /\
  raised (fst (tb_loop_events F N base nv i running ls vss)) = [] /\
  scalars (fst (tb_loop_events F N base nv i running ls vss)) = [] /\
  saves (fst (tb_loop_events F N base nv i running ls vss)) = [].
Proof.
  induction ls as [|l rest IH]; intros i running vss Hc.
  - cbn in Hc. destruct vss; [|discriminate]. now repeat split.
  - cbn [length report_count] in Hc. cbn [tb_loop_events].
    destruct (i mod N =? N - 1).
    + destruct vss as [|vs vss']; [discriminate|].
      injection Hc as Hc.
      destruct (IH (S i) 0%Q vss' Hc) as (H1 & H2 & H3 & H4 & H5).
      destruct (tb_loop_events F N base nv (S i) 0 rest vss') as [evs r].
      cbn [fst] in *. trace_simpl. cbn [concat].
      now rewrite H1, H2, H3, H4, H5.
    + destruct (IH (S i) (running + l)%Q vss Hc) as (H1 & H2 & H3 & H4 & H5).
      destruct (tb_loop_events F N base nv (S i) (running + l) rest vss)
        as [evs r].
      cbn [fst] in *. trace_simpl.
      now rewrite H1, H2, H3, H4, H5.
Qed.

Lemma tb_loop_events_reports ls : forall pre k i running vss,
  length pre < N ->
  i = k * N + length pre ->
  running = Qsum pre ->
  length vss = report_count N i (length ls) ->
  epoch_reports (fst (tb_loop_events F N base nv i running ls vss)) =
  combine (combine (window_means N (pre ++ ls))
                   (map (fun vs => Qdiv_nat (Qsum vs) nv) vss))
          (tb_steps_from N base k (length vss)).
Proof.
  induction ls as [|l rest IH]; intros pre k i running vss Hpre Hi Hr Hc.
  - cbn in Hc. destruct vss; [|discriminate].
    rewrite app_nil_r, window_means_short by assumption. reflexivity.
  - cbn [length report_count] in Hc. cbn [tb_loop_events].
    assert (Hmod : i mod N = length pre).
    { rewrite Hi, Nat.add_comm, Nat.Div0.mod_add. now apply Nat.mod_small. }
    rewrite Hmod in *.
    destruct (length pre =? N - 1) eqn:Ec.
    + apply Nat.eqb_eq in Ec.
      destruct vss as [|vs vss']; [discriminate|]. injection Hc as Hc.
      assert (Hlen : length (pre ++ [l]) = N)
        by (rewrite length_app; cbn; lia).
      specialize (IH [] (S k) (S i) 0%Q vss').
      cbn [app length] in IH.
      destruct (tb_loop_events F N base nv (S i) 0 rest vss') as [evs r].
      cbn [fst] in *. trace_simpl.
      rewrite IH by (try reflexivity; try assumption; lia).
      replace (pre ++ l :: rest) with ((pre ++ [l]) ++ rest)
        by (now rewrite <- app_assoc).
      rewrite window_means_chunk by assumption.
      cbn [map length]. rewrite tb_steps_from_S. cbn [combine].
      rewrite Qsum_snoc, Hr. do 2 f_equal. lia.
    + apply Nat.eqb_neq in Ec.
      specialize (IH (pre ++ [l]) k (S i) (running + l)%Q vss).
      destruct (tb_loop_events F N base nv (S i) (running + l) rest vss)
        as [evs r].
      cbn [fst] in *. trace_simpl.
      rewrite IH.
      * now rewrite <- app_assoc.
      * rewrite length_app. cbn. lia.
      * rewrite length_app. cbn. lia.
      * now rewrite Qsum_snoc, Hr.
      * assumption.
Qed.

End TensorBoardShape.


Lemma report_count_zero N n : 0 < N -> report_count N 0 n = n / N.
Proof. intros HN. exact (@report_count_div N HN n 0 0 HN). Qed.

Lemma tb_run_shape {F} (training_loader validation_loader : list (Batch F))
  N (w : World F) :
  0 < N ->
  exists ls vss,
    Forall (fun vs : list Q => length vs = length validation_loader) vss /\
    (vss <> [] -> length validation_loader <> 0) /\
    length vss = length ls / N /\
    let replay :=
      fst (tb_loop_events F N (0 * length training_loader)
             (length validation_loader) 0 0 ls vss) in
    match tb_run training_loader validation_loader N w with
    | (Ok _, w') =>
        length ls = length training_loader /\
        new_events w w'
        = EvPrintLen (length validation_loader)
            :: replay ++ [EvPrintFinished; EvFlush]
    | (Raise x, w') =>
        length ls < length training_loader /\
        exists tail,
          new_events w w'
          = EvPrintLen (length validation_loader) :: replay ++ tail /\
          tb_abort N (length validation_loader) x (length ls) tail
    end.
Proof.
  intros HN. unfold tb_run. unfold log at 1. rewrite bind_modify.
  set (w0 := mkWorld _ _ _ _ _ _ _ _).
  assert (H0 : w_trace w0
               = w_trace w ++ [EvPrintLen (length validation_loader)])
    by reflexivity.
  clearbody w0.
  destruct (tb_train_loop_shape training_loader validation_loader 0 HN
              training_loader 0 0%Q w0) as (ls & vss & Hall & Hnv & Hc & H).
  exists ls, vss. split; [assumption|]. split; [assumption|].
  split.
  { now rewrite Hc, report_count_zero. }
  cbv zeta. unfold bind at 1.
  destruct (tb_train_loop training_loader validation_loader N 0
              training_loader 0 0 w0) as [[r|x] w1].
  - destruct H as (Hl & Ht & _). unfold log. rewrite !bind_modify.
    unfold modify. split; [assumption|].
    apply new_events_app. cbn [w_trace]. rewrite Ht, H0.
    repeat (rewrite <- app_assoc; cbn [app]). reflexivity.
  - destruct H as (Hl & tail & Ht & Hab). split; [assumption|].
    exists tail. split; [|exact Hab].
    apply new_events_app. rewrite Ht, H0.
    repeat (rewrite <- app_assoc; cbn [app]). reflexivity.
Qed.



(** X9: with an empty validation loader the TensorBoard loop divides by
    [len(validation_loader)]: it never emits a data point; given at least
    [N] training batches it cannot complete, and when no framework call
    raises it ends with [ZeroDivisionError] right after training batch
    [N]; given fewer than [N] training batches no validation is due and,
    when no framework call raises, it completes. *)
Theorem tb_empty_validation_divides_by_zero {F}
  (training_loader : list (Batch F)) N (w : World F) :
  0 < N ->
  let res := tb_run training_loader [] N w in
  let new := new_events w (snd res) in
  epoch_reports new = [] /\
  (N <= length training_loader ->
   is_ok (fst res) = false /\
   (raised new = [] ->
    fst res = Raise ZeroDivisionError /\ length (train_losses new) = N)) /\
  (length training_loader < N ->
   raised new = [] ->
   fst res = Ok tt /\ length (train_losses new) = length training_loader).
Proof.
  intros HN res new. subst res new.
  destruct (tb_run_shape training_loader [] w HN)
    as (ls & vss & Hall & Hnv & Hc & H). cbv zeta in H.
  assert (vss = []) as ->
    by (destruct vss; [reflexivity|exfalso; now apply Hnv]).
  cbn [length] in Hc, H.
  assert (Hc0 : @length (list Q) [] = report_count N 0 (length ls)).
  { rewrite report_count_zero by assumption. exact Hc. }
  destruct (tb_loop_events_projections training_loader [] N 0 ls 0 0%Q []
              Hc0) as (H1 & _ & H3 & _ & _).
  pose proof (tb_loop_events_reports training_loader [] 0 HN ls [] 0
                (i:=0) (running:=0%Q) [] HN eq_refl eq_refl Hc0) as Hrep.
  cbn [map length] in Hrep, H1, H3. rewrite combine_nil in Hrep.
  cbn [combine] in Hrep.
  assert (Hshort : length ls < N).
  { destruct (Nat.lt_ge_cases (length ls) N) as [|Hge]; [assumption|].
    apply (Nat.Div0.div_le_mono _ _ N) in Hge.
    rewrite Nat.div_same in Hge by lia. cbn [length] in Hc. lia. }
  destruct (tb_run training_loader [] N w) as [[[]|x] w']; cbn [fst snd].
  - destruct H as (Hl & ->). trace_simpl. rewrite Hrep, H1.
    split; [reflexivity|]. split; [lia|]. intros _ _. now split.
  - destruct H as (Hl & tail & -> & Hrt & Hab). trace_simpl.
    rewrite Hrep, H1, H3, Hrt. cbn [app].
    split; [reflexivity|].
    destruct x as [|name|e].
    + destruct Hab as (_ & Hmod & l & ->).
      rewrite Nat.mod_small in Hmod by assumption.
      split.
      * intros _. split; [reflexivity|]. intros _.
        split; [reflexivity|]. trace_simpl. rewrite length_app. cbn. lia.
      * intros Hlt. lia.
    + contradiction.
    + destruct Hab as (_ & pre & -> & Hpre).
      rewrite raised_app, Hpre. cbn.
      split; [intros _; split; [reflexivity|discriminate]|discriminate].
Qed.

Lemma tb_empty_validation_divides_by_zero_witness :
  0 < 2 /\ 2 <= length toy_train3 /\
  fst (tb_run toy_train3 [] 2 toy_world) = Raise ZeroDivisionError.
Proof.
  split; [lia|]. split; [cbn; lia|].
  destruct (@tb_empty_validation_divides_by_zero toy toy_train3 2 toy_world)
    as (_ & H & _); [lia|].
  destruct H as [_ H]; [cbn; lia|].
  apply H. reflexivity.
Defined.

(** X10: the TensorBoard loop is fail-fast too: if a framework call raises
    [e] during it, the loop ends with exactly that exception and the
    raising call is its last event; no batch, validation or data point
    follows, and no call raised before. *)
Theorem tb_framework_error_aborts {F}
  (training_loader validation_loader : list (Batch F)) N (w : World F)
  (e : ExtErr F) :
  0 < N ->
  let res := tb_run training_loader validation_loader N w in
  let new := new_events w (snd res) in
  In (EvRaised e) new ->
  framework_raises e /\
  fst res = Raise (FrameworkError e) /\
  exists pre, new = pre ++ [EvRaised e] /\ raised pre = [].
Proof.
  intros HN res new. subst res new.
  destruct (tb_run_shape training_loader validation_loader w HN)
    as (ls & vss & Hall & Hnv & Hc & H). cbv zeta in H.
  assert (Hc0 : length vss = report_count N 0 (length ls)).
  { now rewrite Hc, report_count_zero. }
  destruct (tb_loop_events_projections training_loader validation_loader
              N 0 ls 0 0%Q vss Hc0) as (_ & _ & H3 & _ & _).
  destruct (tb_run training_loader validation_loader N w) as [[[]|x] w'];
    cbn [fst snd].
  - destruct H as (_ & ->). intros Hin. apply raised_In in Hin.
    revert Hin. trace_simpl. now rewrite H3.
  - destruct H as (_ & tail & -> & _ & Hab). intros Hin.
    apply raised_In in Hin. revert Hin. trace_simpl. rewrite H3. cbn [app].
    destruct x as [|name|e'].
    + destruct Hab as (_ & _ & l & ->). now trace_simpl.
    + contradiction.
    + destruct Hab as (Hfr & pre & -> & Hpre).
      rewrite raised_app, Hpre. cbn. intros [<-|[]].
      split; [assumption|]. split; [reflexivity|].
      eexists (_ :: _ ++ _). split.
      * cbn [app]. now rewrite <- app_assoc.
      * trace_simpl. cbn [Nat.mul] in H3. now rewrite H3, Hpre.
Qed.

Lemma tb_framework_error_aborts_witness :
  0 < 2 /\
  In (EvRaised (F:=toy) "shape mismatch"%string)
     (new_events toy_world
        (snd (tb_run toy_train4 (toy_val2 ++ [toy_bad_batch]) 2 toy_world))) /\
  fst (tb_run toy_train4 (toy_val2 ++ [toy_bad_batch]) 2 toy_world)
  = Raise (FrameworkError "shape mismatch"%string).
Proof.
  split; [lia|].
  assert (Hin : In (EvRaised (F:=toy) "shape mismatch"%string)
                   (new_events toy_world
                      (snd (tb_run toy_train4 (toy_val2 ++ [toy_bad_batch])
                                   2 toy_world)))).
  { vm_compute. tauto. }
  split; [exact Hin|].
  apply (@tb_framework_error_aborts toy toy_train4
           (toy_val2 ++ [toy_bad_batch]) 2 toy_world
           "shape mismatch"%string); [lia|exact Hin].
Defined.

(** * The embedding cell of the TensorBoard notebook *)

Section IndexRows.

Context {A : Type}.

Lemma index_rows_Forall2 (data : list A) perm : forall xs,
  index_rows data perm = inr xs ->
  Forall2 (fun i x => nth_error data i = Some x) perm xs.
Proof.
  induction perm as [|i rest IH]; intros xs; cbn.
  - intros [= <-]. constructor.
  - destruct (nth_error data i) as [x|] eqn:Ei; [|discriminate].
    destruct (index_rows data rest) as [e|ys]; [discriminate|].
    intros [= <-]. constructor; [assumption|]. now apply IH.
Qed.

Lemma index_rows_total (data : list A) perm :
  Forall (fun i => i < length data) perm ->
  exists xs, index_rows data perm = inr xs.
Proof.
  induction 1 as [|i rest Hi _ IH]; cbn; [now exists []|].
  destruct (nth_error data i) as [x|] eqn:Ei.
  - destruct IH as (xs & ->). now exists (x :: xs).
  - apply nth_error_None in Ei. lia.
Qed.

Lemma index_rows_out_of_range (data : list A) perm :
  Exists (fun i => length data <= i) perm ->
  index_rows data perm = inl IndexError.
Proof.
  induction 1 as [i rest Hi|i rest _ IH]; cbn.
  - apply nth_error_None in Hi. now rewrite Hi.
  - destruct (nth_error data i); [|reflexivity]. now rewrite IH.
Qed.

End IndexRows.

Lemma Forall2_nth_error_r {A B} (R : A -> B -> Prop) l1 l2 k y :
  Forall2 R l1 l2 -> nth_error l2 k = Some y ->
  exists x, nth_error l1 k = Some x /\ R x y.
Proof.
  intros H. revert k. induction H as [|a b l1 l2 Hab _ IH]; intros k.
  - now destruct k.
  - destruct k as [|k]; cbn.
    + intros [= <-]. now exists a.
    + apply IH.
Qed.

Lemma Forall2_combine {A B} (z1 : list A) (z2 : list B) perm d l :
  Forall2 (fun i x => nth_error z1 i = Some x) perm d ->
  Forall2 (fun i y => nth_error z2 i = Some y) perm l ->
  Forall2 (fun i p => nth_error (combine z1 z2) i = Some p) perm
          (combine d l).
Proof.
  intros H. revert l. induction H as [|i x perm d Hx _ IH]; intros l Hl.
  - constructor.
  - inversion Hl as [|? y ? l' Hy Hl']; subst. cbn [combine].
    constructor; [|now apply IH].
    clear -Hx Hy. revert z2 i Hx Hy.
    induction z1 as [|a z1 IHz]; intros z2 i Hx Hy; [now destruct i|].
    destruct z2 as [|b z2]; [now destruct i|].
    destruct i as [|i]; cbn in *; [congruence|]. now apply IHz.
Qed.

Lemma Forall2_Permutation_l {A B} (R : A -> B -> Prop) l1 l1' :
  Permutation l1 l1' ->
  forall l2, Forall2 R l1 l2 ->
  exists l2', Permutation l2 l2' /\ Forall2 R l1' l2'.
Proof.
  induction 1 as [|a l1 l1' _ IH|a b l1|l1 l1' l1'' _ IH1 _ IH2]; intros l2 H.
  - inversion H; subst. exists []. split; constructor.
  - inversion H as [|? y ? l2t Hy Ht]; subst.
    destruct (IH l2t Ht) as (l2' & Hp & Hf).
    exists (y :: l2'). split; [now constructor|now constructor].
  - inversion H as [|? y ? l2t Hy Ht]; subst.
    inversion Ht as [|? y' ? l2t' Hy' Ht']; subst.
    exists (y' :: y :: l2t'). split; [constructor|now repeat constructor].
  - destruct (IH1 l2 H) as (l2' & Hp1 & Hf1).
    destruct (IH2 l2' Hf1) as (l2'' & Hp2 & Hf2).
    exists l2''. split; [now transitivity l2'|assumption].
Qed.

Lemma Forall2_seq_nth_error {A} (z : list A) : forall pre l2,
  Forall2 (fun i p => nth_error (pre ++ z) i = Some p)
          (seq (length pre) (length z)) l2 ->
  l2 = z.
Proof.
  induction z as [|a z IH]; intros pre l2 H.
  - now inversion H.
  - cbn [length seq] in H. inversion H as [|? p ? l2' Hp Hrest]; subst.
    rewrite nth_error_app2, Nat.sub_diag in Hp by lia. cbn in Hp.
    injection Hp as <-. f_equal.
    apply (IH (pre ++ [a])).
    rewrite <- app_assoc, length_app. cbn [app length].
    now rewrite Nat.add_1_r.
Qed.

(** Rows picked by a permutation of all the indices are a permutation of
    the rows. *)
Lemma Forall2_perm_rows {A} (z : list A) perm ps :
  Permutation perm (seq 0 (length z)) ->
  Forall2 (fun i p => nth_error z i = Some p) perm ps ->
  Permutation ps z.
Proof.
  intros Hperm H.
  destruct (Forall2_Permutation_l Hperm H) as (ps' & Hp & Hf).
  apply (Forall2_seq_nth_error z []) in Hf. now subst ps'.
Qed.

Lemma perm_in_range perm n :
  Permutation perm (seq 0 n) -> Forall (fun i => i < n) perm.
Proof.
  intros H. apply Forall_forall. intros i Hi.
  apply (Permutation_in _ H), in_seq in Hi. lia.
Qed.

Lemma Forall2_same_length {A B} (R : A -> B -> Prop) l1 l2 :
  Forall2 R l1 l2 -> length l1 = length l2.
Proof. induction 1; cbn; congruence. Qed.

(** What a successful [select_n_random] computed. *)
Lemma select_n_random_inv {A B} perm (data : list A) (labels : list B) n d l :
  select_n_random perm data labels n = inr (d, l) ->
  length data = length labels /\
  exists d0 l0,
    Forall2 (fun i x => nth_error data i = Some x) perm d0 /\
    Forall2 (fun i y => nth_error labels i = Some y) perm l0 /\
    d = firstn n d0 /\ l = firstn n l0.
Proof.
  unfold select_n_random.
  destruct (length data =? length labels) eqn:El; [|discriminate].
  apply Nat.eqb_eq in El.
  destruct (index_rows data perm) as [e|d0] eqn:Ed; [discriminate|].
  destruct (index_rows labels perm) as [e|l0] eqn:El0; [discriminate|].
  intros [= <- <-]. split; [assumption|].
  exists d0, l0. repeat split; now apply index_rows_Forall2.
Qed.

(** With a permutation of the row indices and as many labels as rows,
    both indexings succeed and [select_n_random] returns. *)
Lemma select_n_random_ok {A B} perm (data : list A) (labels : list B) n :
  Permutation perm (seq 0 (length data)) ->
  length data = length labels ->
  exists d0 l0,
    index_rows data perm = inr d0 /\ index_rows labels perm = inr l0 /\
    length d0 = length data /\ length l0 = length data /\
    select_n_random perm data labels n = inr (firstn n d0, firstn n l0).
Proof.
  intros Hperm Heq.
  pose proof Hperm as Hr. apply perm_in_range in Hr.
  destruct (@index_rows_total A data perm Hr) as (d0 & Hd).
  rewrite Heq in Hr.
  destruct (@index_rows_total B labels perm Hr) as (l0 & Hl).
  exists d0, l0. split; [assumption|]. split; [assumption|].
  unfold select_n_random. rewrite Hd, Hl.
  apply Nat.eqb_eq in Heq. rewrite Heq.
  apply index_rows_Forall2, Forall2_same_length in Hd, Hl.
  apply Permutation_length in Hperm. rewrite length_seq in Hperm.
  repeat split; lia.
Qed.

(** X11: given the permutation [torch.randperm] returns,
    [select_n_random] fails its assertion when [data] and [labels] differ
    in length, and otherwise returns [min(n, len(data))] rows and as many
    labels. *)
Theorem select_n_random_sizes {A B} perm (data : list A) (labels : list B) n :
  Permutation perm (seq 0 (length data)) ->
  (length data <> length labels ->
   select_n_random perm data labels n = inl AssertionError) /\
  (length data = length labels ->
   exists d l,
     select_n_random perm data labels n = inr (d, l) /\
     length d = min n (length data) /\ length l = min n (length data)).
Proof.
  intros Hperm. split.
  - intros Hne. unfold select_n_random.
    apply Nat.eqb_neq in Hne. now rewrite Hne.
  - intros Heq.
    destruct (@select_n_random_ok A B perm data labels n Hperm Heq)
      as (d0 & l0 & _ & _ & Hd & Hl & Hsel).
    exists (firstn n d0), (firstn n l0). split; [assumption|].
    rewrite !length_firstn. lia.
Qed.

Lemma select_n_random_sizes_witness :
  Permutation [2; 0; 3; 1] (seq 0 (length ["a"; "b"; "c"; "d"]%string)) /\
  length ["a"; "b"; "c"; "d"]%string = length [10; 11; 12; 13] /\
  exists d l,
    select_n_random [2; 0; 3; 1] ["a"; "b"; "c"; "d"]%string
                    [10; 11; 12; 13] 3
    = inr (d, l) /\
    length d = 3 /\ length l = 3.
Proof.
  assert (H : Permutation [2; 0; 3; 1]
                (seq 0 (length ["a"; "b"; "c"; "d"]%string))).
  { cbn. apply Permutation_sym.
    apply perm_trans with [1; 0; 2; 3].
    - apply perm_swap.
    - apply perm_trans with [1; 2; 0; 3].
      + apply perm_skip, perm_swap.
      + apply perm_trans with [2; 1; 0; 3].
        * apply perm_swap.
        * apply perm_skip.
          apply perm_trans with [0; 1; 3]; [apply perm_swap|].
          apply perm_skip, perm_swap. }
  split; [exact H|]. split; [reflexivity|].
  destruct (@select_n_random_sizes string nat [2; 0; 3; 1]
              ["a"; "b"; "c"; "d"]%string [10; 11; 12; 13] 3 H) as [_ Hs].
  exact (Hs eq_refl).
Defined.

(** X12: the labels [select_n_random] returns stay aligned with the rows:
    the [k]-th row and the [k]-th label returned are the row and the
    label of the dataset at one and the same index, the [k]-th of the
    permutation. *)
Theorem select_n_random_aligned {A B} perm (data : list A) (labels : list B)
  n d l k x y :
  select_n_random perm data labels n = inr (d, l) ->
  nth_error d k = Some x ->
  nth_error l k = Some y ->
  exists i, nth_error perm k = Some i /\
            nth_error data i = Some x /\ nth_error labels i = Some y.
Proof.
  intros Hsel Hx Hy.
  apply select_n_random_inv in Hsel.
  destruct Hsel as (_ & d0 & l0 & Hd & Hl & -> & ->).
  rewrite nth_error_firstn in Hx, Hy.
  destruct (k <? n); [|discriminate].
  eapply Forall2_nth_error_r in Hx; [|exact Hd].
  eapply Forall2_nth_error_r in Hy; [|exact Hl].
  destruct Hx as (i & Hi & Hdi). destruct Hy as (j & Hj & Hlj).
  assert (j = i) by congruence. subst j. now exists i.
Qed.

Lemma select_n_random_aligned_witness :
  select_n_random [2; 0; 3; 1] ["a"; "b"; "c"; "d"]%string [10; 11; 12; 13] 3
  = inr (["c"; "a"; "d"]%string, [12; 10; 13]) /\
  exists i, nth_error [2; 0; 3; 1] 2 = Some i /\
            nth_error ["a"; "b"; "c"; "d"]%string i = Some "d"%string /\
            nth_error [10; 11; 12; 13] i = Some 13.
Proof.
  split; [reflexivity|].
  apply (@select_n_random_aligned string nat [2; 0; 3; 1]
           ["a"; "b"; "c"; "d"]%string [10; 11; 12; 13] 3
           ["c"; "a"; "d"]%string [12; 10; 13] 2); reflexivity.
Defined.

(** X13: [select_n_random] samples without replacement: the pairs it
    returns, together with [len(data) - n] pairs it left out, are a
    permutation of the dataset's (row, label) pairs; with [n] at least
    [len(data)] it returns the whole dataset, shuffled. *)
Theorem select_n_random_without_replacement {A B} perm (data : list A)
  (labels : list B) n d l :
  Permutation perm (seq 0 (length data)) ->
  select_n_random perm data labels n = inr (d, l) ->
  (exists rest,
      Permutation (combine d l ++ rest) (combine data labels) /\
      length rest = length data - n) /\
  (length data <= n -> Permutation (combine d l) (combine data labels)).
Proof.
  intros Hperm Hsel.
  apply select_n_random_inv in Hsel.
  destruct Hsel as (Heq & d0 & l0 & Hd & Hl & -> & ->).
  pose proof (@Forall2_combine A B data labels perm d0 l0 Hd Hl) as Hc.
  assert (Hlen : length (combine data labels) = length data)
    by (rewrite length_combine; lia).
  rewrite <- Hlen in Hperm.
  pose proof (@Forall2_perm_rows (A * B) (combine data labels) perm
                (combine d0 l0) Hperm Hc) as Hp.
  assert (Hl0 : length (combine d0 l0) = length data).
  { apply Permutation_length in Hp. lia. }
  rewrite <- combine_firstn. split.
  - exists (skipn n (combine d0 l0)). split.
    + now rewrite firstn_skipn.
    + now rewrite length_skipn, Hl0.
  - intros Hn. now rewrite firstn_all2 by lia.
Qed.

Lemma select_n_random_without_replacement_witness :
  Permutation [1; 0] (seq 0 (length ["a"; "b"]%string)) /\
  select_n_random [1; 0] ["a"; "b"]%string [10; 11] 100
  = inr (["b"; "a"]%string, [11; 10]) /\
  Permutation (combine ["b"; "a"]%string [11; 10])
              (combine ["a"; "b"]%string [10; 11]).
Proof.
  assert (H : Permutation [1; 0] (seq 0 (length ["a"; "b"]%string)))
    by apply perm_swap.
  split; [exact H|]. split; [reflexivity|].
  destruct (@select_n_random_without_replacement string nat [1; 0]
              ["a"; "b"]%string [10; 11] 100 ["b"; "a"]%string [11; 10]
              H eq_refl) as [_ Hall].
  apply Hall. cbn. lia.
Defined.

Lemma class_labels_Forall2 labels : forall names,
  class_labels labels = inr names ->
  Forall2 (fun c name => nth_error classes c = Some name) labels names.
Proof.
  induction labels as [|c rest IH]; intros names; cbn [class_labels].
  - intros [= <-]. constructor.
  - destruct (nth_error classes c) as [name|] eqn:Ec; [|discriminate].
    destruct (class_labels rest) as [e|ns]; [discriminate|].
    intros [= <-]. constructor; [assumption|]. now apply IH.
Qed.

Lemma class_labels_total labels :
  Forall (fun c => c < 10) labels ->
  exists names, class_labels labels = inr names.
Proof.
  induction 1 as [|c rest Hc _ IH]; cbn [class_labels]; [now exists []|].
  destruct (nth_error classes c) as [name|] eqn:Ec.
  - destruct IH as (ns & ->). now exists (name :: ns).
  - apply nth_error_None in Ec. cbn in Ec. lia.
Qed.

(** X14: the embedding cell hands [add_embedding] one metadata entry per
    selected image: when every target of the dataset is a class index
    below 10, it selects [min(100, len(data))] images and as many class
    names, and the [k]-th name is the name of the class of the [k]-th
    selected image's own target.  A label of 10 or more anywhere in a
    list makes the comprehension raise [IndexError]. *)
Theorem embedding_cell_metadata {A} perm (data : list A) (targets : list nat) :
  Permutation perm (seq 0 (length data)) ->
  length data = length targets ->
  Forall (fun c => c < 10) targets ->
  (exists images names,
      embedding_cell perm data targets = inr (images, names) /\
      length images = min 100 (length data) /\
      length names = length images /\
      forall k x name,
        nth_error images k = Some x -> nth_error names k = Some name ->
        exists i c,
          nth_error perm k = Some i /\ nth_error data i = Some x /\
          nth_error targets i = Some c /\
          nth_error classes c = Some name) /\
  (forall labels,
      Exists (fun c => 10 <= c) labels ->
      class_labels labels = inl IndexError).
Proof.
  intros Hperm Heq Hall. split.
  - destruct (@select_n_random_ok A nat perm data targets 100 Hperm Heq)
      as (d0 & l0 & Hd & Hl & Hld & Hll & Hsel).
    apply index_rows_Forall2 in Hd, Hl.
    set (images := firstn 100 d0) in *. set (labels := firstn 100 l0) in *.
    assert (Hli : length images = min 100 (length data))
      by (subst images; rewrite length_firstn; lia).
    assert (Hlb : length labels = min 100 (length data))
      by (subst labels; rewrite length_firstn; lia).
    assert (Hlab : Forall (fun c => c < 10) labels).
    { subst labels. apply Forall_forall. intros c Hc.
      apply In_nth_error in Hc. destruct Hc as (k & Hk).
      rewrite nth_error_firstn in Hk. destruct (k <? 100); [|discriminate].
      eapply Forall2_nth_error_r in Hk; [|exact Hl].
      destruct Hk as (i & _ & Hti).
      rewrite Forall_forall in Hall. apply Hall.
      eapply nth_error_In. exact Hti. }
    destruct (class_labels_total Hlab) as (names & Hn).
    exists images, names. unfold embedding_cell. rewrite Hsel, Hn.
    split; [reflexivity|]. split; [assumption|].
    pose proof Hn as Hf. apply class_labels_Forall2 in Hf.
    split; [apply Forall2_same_length in Hf; lia|].
    intros k x name Hx Hname.
    eapply Forall2_nth_error_r in Hname; [|exact Hf].
    destruct Hname as (c & Hc & Hcn).
    subst images labels. rewrite nth_error_firstn in Hx, Hc.
    destruct (k <? 100); [|discriminate].
    eapply Forall2_nth_error_r in Hx; [|exact Hd].
    eapply Forall2_nth_error_r in Hc; [|exact Hl].
    destruct Hx as (i & Hi & Hdi). destruct Hc as (j & Hj & Hlj).
    assert (j = i) by congruence. subst j. now exists i, c.
  - intros labels. induction 1 as [c rest Hc|c rest _ IH]; cbn [class_labels].
    + assert (Hn : nth_error classes c = None)
        by (apply nth_error_None; cbn; lia).
      now rewrite Hn.
    + destruct (nth_error classes c); [|reflexivity]. now rewrite IH.
Qed.

Lemma embedding_cell_metadata_witness :
  Permutation [1; 0] (seq 0 (length ["a"; "b"]%string)) /\
  length ["a"; "b"]%string = length [9; 1] /\
  Forall (fun c => c < 10) [9; 1] /\
  exists images names,
    embedding_cell [1; 0] ["a"; "b"]%string [9; 1] = inr (images, names) /\
    length images = 2 /\ length names = length images.
Proof.
  assert (H : Permutation [1; 0] (seq 0 (length ["a"; "b"]%string)))
    by apply perm_swap.
  assert (Hall : Forall (fun c => c < 10) [9; 1])
    by (repeat constructor; lia).
  split; [exact H|]. split; [reflexivity|]. split; [exact Hall|].
  destruct (@embedding_cell_metadata string [1; 0] ["a"; "b"]%string [9; 1]
              H eq_refl Hall) as [(images & names & Hcell & Hi & Hn & _) _].
  exists images, names. repeat split; assumption.
Defined.

(** * Gradients do not carry over *)

(** X15: every training batch starts from zeroed gradients: when
    [optimizer.zero_grad()] leaves the same gradients whatever they were,
    [train_one_epoch] on a non-empty loader returns the same value and
    leaves the same state whatever gradients the state held before. *)
Theorem train_one_epoch_ignores_stale_gradients {F}
  (training_loader : list (Batch F)) N epoch_index (w : World F)
  (g : Grads F) :
  (forall g1 g2, zero_grad F g1 = zero_grad F g2) ->
  training_loader <> [] ->
  train_one_epoch training_loader N epoch_index
    (mkWorld (w_params w) g (w_opt w) (w_training w) (epoch_number w)
             (best_vloss w) (g_i w) (w_trace w))
  = train_one_epoch training_loader N epoch_index w.
Proof.
  intros Hz Hne. unfold train_one_epoch.
  destruct training_loader as [|data rest]; [contradiction|].
  assert (Hb : train_batch data
                 (mkWorld (w_params w) g (w_opt w) (w_training w)
                          (epoch_number w) (best_vloss w) (g_i w) (w_trace w))
               = train_batch data w).
  { destruct data as [inputs labels].
    unfold train_batch, optimizer_zero_grad, bind, gets, set_grads, modify.
    cbn [w_params w_grads w_opt w_training epoch_number best_vloss g_i
         w_trace].
    now rewrite (Hz g (w_grads w)). }
  cbn [train_loop]. unfold bind, train_iter, bind. now rewrite Hb.
Qed.

Lemma train_one_epoch_ignores_stale_gradients_witness :
  (forall g1 g2, zero_grad toy g1 = zero_grad toy g2) /\
  toy_train3 <> [] /\
  train_one_epoch toy_train3 2 0
    (mkWorld (F:=toy) 0 7 0 false 0 0%Q None [])
  = train_one_epoch toy_train3 2 0 toy_world.
Proof.
  assert (Hz : forall g1 g2, zero_grad toy g1 = zero_grad toy g2)
    by reflexivity.
  assert (Hne : toy_train3 <> []) by discriminate.
  split; [exact Hz|]. split; [exact Hne|].
  exact (@train_one_epoch_ignores_stale_gradients toy toy_train3 2 0 toy_world
           7 Hz Hne).
Defined.
